(** * image_downloader.py: the fetch-and-verify pipeline

    A shallow embedding of [src/image_downloader.py] and the properties of
    its per-entry worker [download_image_and_desc], its transport function
    [download_with_progress] and its scheduler in [main].

    Conventions of the embedding:
    - a Python [str] and a Python [bytes] are both a [string] (a sequence of
      8-bit characters; a [str] stands for its UTF-8 encoding);
    - the file system is a finite map from path strings to nodes, a file
      with its content or a directory; paths are compared as strings ([.],
      [..] and links are not resolved) and permissions are not modelled;
    - the remote side is a function from the request number and the URL to
      what [requests.get] gives back, so that it may answer the same URL
      differently at different times;
    - code that can raise returns a [result]; code with effects is a function
      from the world to a result and the next world;
    - the world also keeps the list of the finished calls of the transport
      function, which the properties speak about;
    - the tasks of the thread pool run one after the other, in any order;
    - reading and parsing the manifest, the prompt, the creation of the
      output directories and console output ([print], [tqdm]) are not part
      of the model. *)

From Stdlib Require Import ZArith NArith Ascii String List Lia.
From stdpp Require Import gmap strings list fin_maps pretty.

(** ** Strings *)

Definition TAB : string := String "009"%char "".
Definition NL : string := String "010"%char "".

(** [s.startswith(p)] *)
Fixpoint startswith (p s : string) : bool :=
  match p, s with
  | EmptyString, _ => true
  | String a p', String b s' => bool_decide (a = b) && startswith p' s'
  | String _ _, EmptyString => false
  end.

(** The last character of a string, if any. *)
Fixpoint last_char (s : string) : option ascii :=
  match s with
  | EmptyString => None
  | String a EmptyString => Some a
  | String _ s' => last_char s'
  end.

(** [s.endswith("/")] *)
Definition endswith_sep (s : string) : bool :=
  bool_decide (last_char s = Some "/"%char).

(** The first [n] characters of [s] and the rest: [s[:n]] and [s[n:]]. *)
Fixpoint str_take (n : nat) (s : string) : string :=
  match n, s with
  | S n', String a s' => String a (str_take n' s')
  | _, _ => EmptyString
  end.

Fixpoint str_drop (n : nat) (s : string) : string :=
  match n, s with
  | S n', String _ s' => str_drop n' s'
  | _, _ => s
  end.

Fixpoint str_concat (l : list string) : string :=
  match l with
  | [] => ""
  | s :: l' => s +:+ str_concat l'
  end.

(** ** [hashlib.sha1]

    SHA-1 (FIPS 180-4) over the bytes of a string; 32-bit words are numbers
    of [N] reduced modulo [2^32]. *)

Module SHA1.

Local Open Scope N_scope.

Definition mask32 (x : N) : N := N.land x 0xFFFFFFFF.
Definition add32 (a b : N) : N := mask32 (a + b).
Definition rotl (n x : N) : N :=
  mask32 (N.lor (N.shiftl x n) (N.shiftr x (32 - n))).
Definition not32 (x : N) : N := N.lxor x 0xFFFFFFFF.

(** Message padding: a [0x80] byte, zero bytes up to 56 modulo 64, and the
    bit length as a 64-bit big-endian number. *)
Definition be_bytes (k : nat) (x : N) : list N :=
  map (fun i => N.land (N.shiftr x (8 * N.of_nat i)) 0xFF) (rev (seq 0 k)).

Definition pad (msg : list N) : list N :=
  let l := length msg in
  msg ++ [0x80] ++ repeat 0 ((119 - l mod 64) mod 64)%nat
      ++ be_bytes 8 (8 * N.of_nat l).

Fixpoint words (bs : list N) : list N :=
  match bs with
  | a :: b :: c :: d :: r =>
      N.lor (N.shiftl a 24) (N.lor (N.shiftl b 16) (N.lor (N.shiftl c 8) d))
      :: words r
  | _ => []
  end.

(** The message schedule, most recent word first: [sched !! 0] is [w(t-1)]. *)
Fixpoint expand (k : nat) (sched : list N) : list N :=
  match k with
  | O => sched
  | S k' =>
      let w i := nth i sched 0 in
      expand k' (rotl 1 (N.lxor (N.lxor (w 2%nat) (w 7%nat))
                                (N.lxor (w 13%nat) (w 15%nat))) :: sched)
  end.

Definition schedule (block : list N) : list N :=
  rev (expand 64 (rev block)).

Definition round_f (t : nat) (b c d : N) : N :=
  if (t <? 20)%nat then N.lor (N.land b c) (N.land (not32 b) d)
  else if (t <? 40)%nat then N.lxor b (N.lxor c d)
  else if (t <? 60)%nat
       then N.lor (N.land b c) (N.lor (N.land b d) (N.land c d))
  else N.lxor b (N.lxor c d).

Definition round_k (t : nat) : N :=
  if (t <? 20)%nat then 0x5A827999
  else if (t <? 40)%nat then 0x6ED9EBA1
  else if (t <? 60)%nat then 0x8F1BBCDC
  else 0xCA62C1D6.

Record state := State { h0 : N; h1 : N; h2 : N; h3 : N; h4 : N }.

Definition init : state :=
  State 0x67452301 0xEFCDAB89 0x98BADCFE 0x10325476 0xC3D2E1F0.

Definition step (st : state) (tw : nat * N) : state :=
  let '(State a b c d e) := st in
  let '(t, w) := tw in
  let temp :=
    add32 (add32 (add32 (add32 (rotl 5 a) (round_f t b c d)) e) (round_k t)) w in
  State temp a (rotl 30 b) c d.

Definition compress (h : state) (block : list N) : state :=
  let ws := schedule block in
  let '(State a b c d e) := fold_left step (combine (seq 0 80) ws) h in
  State (add32 (h0 h) a) (add32 (h1 h) b) (add32 (h2 h) c)
        (add32 (h3 h) d) (add32 (h4 h) e).

Fixpoint blocks (fuel : nat) (ws : list N) (h : state) : state :=
  match fuel, ws with
  | S fuel', _ :: _ => blocks fuel' (skipn 16 ws) (compress h (firstn 16 ws))
  | _, _ => h
  end.

Definition digest (msg : list N) : state :=
  let ws := words (pad msg) in
  blocks (length ws) ws init.

Definition hex_digit (x : N) : ascii :=
  match x with
  | 0 => "0" | 1 => "1" | 2 => "2" | 3 => "3" | 4 => "4" | 5 => "5"
  | 6 => "6" | 7 => "7" | 8 => "8" | 9 => "9" | 10 => "a" | 11 => "b"
  | 12 => "c" | 13 => "d" | 14 => "e" | _ => "f"
  end%char.

Definition hex32 (x : N) : string :=
  fold_right (fun i s => String (hex_digit (N.land (N.shiftr x (4 * N.of_nat i)) 0xF)) s)
             "" (rev (seq 0 8)).

Fixpoint bytes_of (s : string) : list N :=
  match s with
  | EmptyString => []
  | String a s' => N_of_ascii a :: bytes_of s'
  end.

(** The lowercase hexadecimal digest of the message [s]. *)
Definition hexdigest (s : string) : string :=
  let '(State a b c d e) := digest (bytes_of s) in
  hex32 a +:+ hex32 b +:+ hex32 c +:+ hex32 d +:+ hex32 e.

End SHA1.

(** ** Exceptions and results *)

Inductive exn_class :=
| ValueError
| FormatFieldError  (* the ValueError, KeyError or IndexError of [str.format] *)
| FileNotFoundError | IsADirectoryError
| HTTPError | RequestException
| NotModelled.

(** An exception: its class and the text [str(e)] gives. *)
Record exn := Exn { exn_cls : exn_class; exn_str : string }.

Inductive result (A : Type) :=
| Return (a : A)
| Raise (e : exn).
Arguments Return {A} a.
Arguments Raise {A} e.

(** ** The monad of effectful code

    [St S A] is code that reads and updates a state [S] and either returns an
    [A] or raises; the state reached when the exception is raised is kept,
    as in Python. *)

Definition St (S A : Type) : Type := S -> result A * S.

Definition ret {S A} (a : A) : St S A := fun s => (Return a, s).
Definition raise {S A} (e : exn) : St S A := fun s => (Raise e, s).
Definition bind {S A B} (m : St S A) (k : A -> St S B) : St S B :=
  fun s => match m s with
           | (Return a, s') => k a s'
           | (Raise e, s') => (Raise e, s')
           end.
(** [try: body  except Exception as e: handler e] *)
Definition try_except {S A} (body : St S A) (handler : exn -> St S A) : St S A :=
  fun s => match body s with
           | (Return a, s') => (Return a, s')
           | (Raise e, s') => handler e s'
           end.
Definition pure_result {S A} (r : result A) : St S A := fun s => (r, s).

Declare Scope st_scope.
Delimit Scope st_scope with st.
Notation "x <- m ;; k" := (bind m (fun x => k))
  (at level 100, m at next level, right associativity) : st_scope.
Notation "m ;;; k" := (bind m (fun _ => k))
  (at level 100, right associativity) : st_scope.

(** ** The world: file system, remote side, and the log of transport calls *)

Inductive node :=
| File (data : string)
| Dir (st_size : nat).

(** What the server sent: [total] is the outcome of
    [int(response.headers.get('content-length', 0))], [chunks] is what
    [iter_content] yields, and [broken] is the exception it raises after the
    last chunk when the transfer breaks off. *)
Record response := Response {
  status_code : Z;
  reason : string;
  resp_url : string;
  total : result Z;
  chunks : list string;
  broken : option exn
}.

(** What [requests.get] gives back: a response, or a request-level error
    (DNS failure, refused connection, timeout, invalid URL). *)
Inductive reply :=
| Responded (r : response)
| Failed (e : exn).

(** One finished call of [download_with_progress]: its arguments, what the
    remote side answered and what the call returned. *)
Record call := Call {
  call_url : string;
  call_path : string;
  call_label : string;
  call_context : string;
  call_reply : reply;
  call_result : bool * string
}.

Record World := mkWorld {
  fs : gmap string node;
  net : nat -> string -> reply;
  trace : list call
}.

Definition IO (A : Type) : Type := St World A.

Definition set_fs (f : gmap string node -> gmap string node) (w : World) : World :=
  mkWorld (f (fs w)) (net w) (trace w).

(** ** CONFIG *)

Definition MAX_WORKERS : nat := 10.
Definition INPUT_FILE : string := "image_list.txt".
Definition OUTPUT_DIR : string := "images".
Definition DESC_DIR : string := "descs".
Definition ERROR_LOG_FILE : string := "error_log.txt".

(** ** Library functions the script calls *)

(** [repr(path)] for a path without quotes, backslashes or control
    characters. *)
Definition repr (s : string) : string := "'" +:+ s +:+ "'".

Definition is_a_directory (path : string) : exn :=
  Exn IsADirectoryError ("[Errno 21] Is a directory: " +:+ repr path).
Definition no_such_file (path : string) : exn :=
  Exn FileNotFoundError ("[Errno 2] No such file or directory: " +:+ repr path).

(** [os.path.exists] *)
Definition os_path_exists (path : string) : IO bool :=
  fun w => (Return (match fs w !! path with Some _ => true | None => false end), w).

(** [os.path.getsize] *)
Definition os_path_getsize (path : string) : IO nat :=
  fun w => match fs w !! path with
           | Some (File data) => (Return (String.length data), w)
           | Some (Dir n) => (Return n, w)
           | None => (Raise (no_such_file path), w)
           end.

(** [os.remove] *)
Definition os_remove (path : string) : IO unit :=
  fun w => match fs w !! path with
           | Some (File _) => (Return tt, set_fs (delete path) w)
           | Some (Dir _) => (Raise (is_a_directory path), w)
           | None => (Raise (no_such_file path), w)
           end.

(** [open(path, 'rb')]: the handle is the data still to be read. *)
Definition open_rb (path : string) : IO string :=
  fun w => match fs w !! path with
           | Some (File data) => (Return data, w)
           | Some (Dir _) => (Raise (is_a_directory path), w)
           | None => (Raise (no_such_file path), w)
           end.

(** [open(path, 'wb')]: creates the file or truncates it. *)
Definition open_wb (path : string) : IO unit :=
  fun w => match fs w !! path with
           | Some (Dir _) => (Raise (is_a_directory path), w)
           | _ => (Return tt, set_fs <[path := File ""]> w)
           end.

(** [open(path, 'a')]: creates the file when it is absent. *)
Definition open_a (path : string) : IO unit :=
  fun w => match fs w !! path with
           | Some (Dir _) => (Raise (is_a_directory path), w)
           | Some (File _) => (Return tt, w)
           | None => (Return tt, set_fs <[path := File ""]> w)
           end.

Definition file_data (o : option node) : string :=
  match o with
  | Some (File data) => data
  | _ => ""
  end.

(** [f.write(data)] on a handle opened for writing or appending on [path]. *)
Definition f_write (path data : string) : IO unit :=
  fun w => (Return tt,
            set_fs (fun m => <[path := File (file_data (m !! path) +:+ data)]> m) w).

(** [os.path.join(a, b)] of [posixpath]. *)
Definition path_join (a b : string) : string :=
  if startswith "/" b then b
  else if bool_decide (a = "") || endswith_sep a then a +:+ b
  else a +:+ "/" +:+ b.

(** [urllib.parse.quote(s)] with the default [safe='/']: the unreserved
    characters and the slash are kept, every other byte becomes [%XX] with
    uppercase hexadecimal digits. *)
Definition is_safe (c : ascii) : bool :=
  let n := N_of_ascii c in
  ((65 <=? n) && (n <=? 90))%N || ((97 <=? n) && (n <=? 122))%N
  || ((48 <=? n) && (n <=? 57))%N
  || bool_decide (c = "_"%char) || bool_decide (c = "."%char)
  || bool_decide (c = "-"%char) || bool_decide (c = "~"%char)
  || bool_decide (c = "/"%char).

Definition HEX_digit (x : N) : ascii :=
  match x with
  | 0 => "0" | 1 => "1" | 2 => "2" | 3 => "3" | 4 => "4" | 5 => "5"
  | 6 => "6" | 7 => "7" | 8 => "8" | 9 => "9" | 10 => "A" | 11 => "B"
  | 12 => "C" | 13 => "D" | 14 => "E" | _ => "F"
  end%N%char.

Fixpoint quote (s : string) : string :=
  match s with
  | EmptyString => ""
  | String c s' =>
      if is_safe c then String c (quote s')
      else String "%" (String (HEX_digit (N_of_ascii c / 16)%N)
                         (String (HEX_digit (N_of_ascii c mod 16)%N) (quote s')))
  end.

(** [template.format(filename=value)].  Literal text is copied, [{{] and
    [}}] give one brace, [{filename}] gives [value].  A lone brace, an
    unclosed field and a field of another name raise, as in Python (the
    only keyword argument is [filename] and there are no positional ones);
    which of ValueError, KeyError and IndexError it is depends on the field
    and is not distinguished.
    A field that applies a lookup, a conversion or a format specification
    to [filename] ([{filename!r}], [{filename:>9}], ...) is outside the
    model and is marked [NotModelled]. *)
Definition field_escape (c : ascii) : bool :=
  bool_decide (c = "."%char) || bool_decide (c = "["%char)
  || bool_decide (c = "!"%char) || bool_decide (c = ":"%char).

Fixpoint str_format (template value : string) : result string :=
  match template with
  | EmptyString => Return ""
  | String c rest =>
      if bool_decide (c = "{"%char) then
        match rest with
        | EmptyString =>
            Raise (Exn FormatFieldError "Single '{' encountered in format string")
        | String c' rest' =>
            if bool_decide (c' = "{"%char) then
              match str_format rest' value with
              | Return s => Return (String "{" s)
              | Raise e => Raise e
              end
            else if startswith "filename}" rest then
              match str_format (str_drop 8 rest') value with
              | Return s => Return (value +:+ s)
              | Raise e => Raise e
              end
            else if startswith "filename" rest
                    && match str_drop 8 rest with
                       | String d _ => field_escape d
                       | EmptyString => false
                       end
            then Raise (Exn NotModelled "replacement field on filename")
            else Raise (Exn FormatFieldError "replacement field without argument")
        end
      else if bool_decide (c = "}"%char) then
        match rest with
        | String "}" rest' =>
            match str_format rest' value with
            | Return s => Return (String "}" s)
            | Raise e => Raise e
            end
        | _ => Raise (Exn FormatFieldError "Single '}' encountered in format string")
        end
      else
        match str_format rest value with
        | Return s => Return (String c s)
        | Raise e => Raise e
        end
  end.

(** [requests.get(url, stream=True, timeout=30)]: the answer of the remote
    side to the request made after [length (trace w)] finished calls. *)
Definition requests_get (url : string) : IO response :=
  fun w => match net w (length (trace w)) url with
           | Responded r => (Return r, w)
           | Failed e => (Raise e, w)
           end.

(** [response.raise_for_status()] *)
Definition raise_for_status (r : response) : IO unit :=
  if ((400 <=? status_code r) && (status_code r <? 500))%Z then
    raise (Exn HTTPError (pretty (status_code r) +:+ " Client Error: "
                          +:+ reason r +:+ " for url: " +:+ resp_url r))
  else if ((500 <=? status_code r) && (status_code r <? 600))%Z then
    raise (Exn HTTPError (pretty (status_code r) +:+ " Server Error: "
                          +:+ reason r +:+ " for url: " +:+ resp_url r))
  else ret tt.

(** ** The script *)

(** [sha1_hash]: the hash object is the message fed to it so far; the loop
    [for chunk in iter(lambda: f.read(8192), b'')] reads until a read
    returns the empty string. *)
Definition CHUNK : nat := 8 * 1024.

Fixpoint read_loop (fuel : nat) (f h : string) : string :=
  match fuel with
  | O => h
  | S fuel' =>
      match str_take CHUNK f with
      | EmptyString => h
      | chunk => read_loop fuel' (str_drop CHUNK f) (h +:+ chunk)
      end
  end.

Definition sha1_hash (filepath : string) : IO string :=
  (f <- open_rb filepath ;;
   ret (SHA1.hexdigest (read_loop (S (String.length f)) f "")))%st.

Definition nonempty (s : string) : bool :=
  match s with EmptyString => false | _ => true end.

(** The body of the [with open(path, 'wb')] block: every non-empty chunk is
    written; when the transfer breaks off, the exception leaves the block
    with the chunks written so far in the file. *)
Fixpoint write_chunks (path : string) (cs : list string) : IO unit :=
  match cs with
  | [] => ret tt
  | c :: cs' =>
      ((if nonempty c then f_write path c else ret tt) ;;;
       write_chunks path cs')%st
  end.

(** The log of calls is not part of the script: the model keeps it so that
    properties can speak of the calls that were made.  A call is recorded
    when it returns, with the answer its request got. *)
Definition record_call (url path label error_context : string)
    (m : IO (bool * string)) : IO (bool * string) :=
  fun w => match m w with
           | (Return res, w') =>
               (Return res,
                mkWorld (fs w') (net w')
                  (trace w' ++ [Call url path label error_context
                                     (net w (length (trace w)) url) res]))
           | (Raise e, w') => (Raise e, w')
           end.

Definition download_with_progress (url path label error_context : string)
    : IO (bool * string) :=
  record_call url path label error_context
    (try_except
       (response <- requests_get url ;;
        if bool_decide (status_code response = 404%Z) then
          (open_a ERROR_LOG_FILE ;;;
           f_write ERROR_LOG_FILE (error_context +:+ TAB +:+ url +:+ NL) ;;;
           ret (false, "404 Not Found"))
        else
          (raise_for_status response ;;;
           _total <- pure_result (total response) ;;
           open_wb path ;;;
           write_chunks path (chunks response) ;;;
           match broken response with
           | Some e => raise e
           | None => ret (true, "")
           end))%st
       (fun e => ret (false, exn_str e))).

(** The state of one run of [download_image_and_desc]: the world and the
    local list [errors]. *)
Definition Frame : Type := World * list string.

Definition lift {A} (m : IO A) : St Frame A :=
  fun '(w, errors) => let '(r, w') := m w in (r, (w', errors)).

(** [errors.append(s)] *)
Definition errors_append (s : string) : St Frame unit :=
  fun '(w, errors) => (Return tt, (w, errors ++ [s])).

(** [errors = []] ... [return errors] *)
Definition return_errors (x : result unit * Frame) : result (list string) * World :=
  match x with
  | (Return _, (w', errors)) => (Return errors, w')
  | (Raise e, (w', _)) => (Raise e, w')
  end.

Definition with_errors (m : St Frame unit) : IO (list string) :=
  fun w => return_errors (m (w, [])).

Definition unpack_error (n : nat) : exn :=
  if (n <? 5)%nat
  then Exn ValueError ("not enough values to unpack (expected 5, got "
                       +:+ pretty n +:+ ")")
  else Exn ValueError "too many values to unpack (expected 5)".

(** The paths of the asset and of the description of [filename]. *)
Definition filepath_of (filename : string) : string :=
  path_join OUTPUT_DIR filename.
Definition descpath_of (filename : string) : string :=
  path_join DESC_DIR (filename +:+ ".desc").

Section Script.

(** The answer to the prompt, stripped. *)
Variable base_wiki_url : string.

Definition desc_url_template : string :=
  base_wiki_url +:+ "/wiki/Special:Export/File:{filename}".

Definition download_image_and_desc (entry : list string) : IO (list string) :=
  match entry with
  | [filename; url; uploader; size; sha1] =>
      let filepath := filepath_of filename in
      let descpath := descpath_of filename in
      with_errors
        (try_except
           (present <- lift (os_path_exists filepath) ;;
            download_image <-
              (if present : bool then
                 actual_size <- lift (os_path_getsize filepath) ;;
                 actual_sha1 <- lift (sha1_hash filepath) ;;
                 ret (negb (bool_decide (pretty actual_size = size)
                            && bool_decide (actual_sha1 = sha1)))
               else ret true) ;;
            (if download_image : bool then
               r <- lift (download_with_progress url filepath
                            ("Image: " +:+ filename) filename) ;;
               if fst r then ret tt
               else errors_append (filename +:+ " - image failed: " +:+ snd r)
             else ret tt) ;;;
            desc_url <- pure_result (str_format desc_url_template (quote filename)) ;;
            r <- lift (download_with_progress desc_url descpath
                         ("Desc: " +:+ filename) (filename +:+ ".desc")) ;;
            if fst r then ret tt
            else errors_append (filename +:+ " - desc failed: " +:+ snd r))%st
           (fun e =>
              errors_append (filename +:+ " - unexpected error: " +:+ exn_str e)))
  | _ => raise (unpack_error (length entry))
  end.

(** ** The scheduler

    [executor.map] submits one task per entry.  The tasks run in some order
    of completion and the results are handed out in the order of
    submission.  A schedule is any list of indices: the tasks it names run
    first, in its order (an index out of range or named again is skipped),
    and the tasks it does not name run afterwards in the order of
    submission, so that every task runs once whatever the schedule.  Each
    task runs to its end before the next one starts, and every task runs
    even when the result of an earlier one raises in [main]. *)

Definition completion_order (n : nat) (sched : list nat) : list nat :=
  let named := remove_dups (filter (fun i => i < n)%nat sched) in
  named ++ filter (fun i => i ∉ named) (seq 0 n).

(** The journal of a run: which task ran, and what it returned. *)
Definition journal : Type := list (nat * result (list string)).

Definition run_task (entries : list (list string))
    (st : journal * World) (i : nat) : journal * World :=
  match entries !! i with
  | Some entry =>
      let '(r, w') := download_image_and_desc entry (snd st) in
      (fst st ++ [(i, r)], w')
  | None => st
  end.

Definition run_tasks (entries : list (list string)) (sched : list nat)
    (w : World) : journal * World :=
  fold_left (run_task entries)
            (completion_order (length entries) sched) ([], w).

(** The result of task [i]: what its (first) run in the journal returned. *)
Fixpoint result_of (j : journal) (i : nat) : option (result (list string)) :=
  match j with
  | [] => None
  | (k, r) :: j' => if bool_decide (k = i) then Some r else result_of j' i
  end.

Definition executor_map (entries : list (list string)) (sched : list nat)
    : IO (list (result (list string))) :=
  fun w => let '(j, w') := run_tasks entries sched w in
           (Return (omap (result_of j) (seq 0 (length entries))), w').

(** [for result in ...: all_errors.extend(result)]: a task that raised
    raises again when its result is taken. *)
Fixpoint extend_all (results : list (result (list string)))
    (all_errors : list string) : result (list string) :=
  match results with
  | [] => Return all_errors
  | Return r :: rest => extend_all rest (all_errors ++ r)
  | Raise e :: _ => Raise e
  end.

(** [main], from the parsed [entries] on; it returns [all_errors], the list
    the script prints. *)
Definition main (entries : list (list string)) (sched : list nat)
    : IO (list string) :=
  (present <- os_path_exists ERROR_LOG_FILE ;;
   (if present : bool then os_remove ERROR_LOG_FILE else ret tt) ;;;
   results <- executor_map entries sched ;;
   pure_result (extend_all results []))%st.

End Script.

(** ** Vocabulary of the properties *)

(** What the worker finds at the asset path: nothing, a file whose size and
    digest are the expected ones, a file for which one of them differs, or
    something it cannot read. *)
Inductive local_asset :=
| Absent
| Matches
| Differs
| Unreadable (e : exn).

Definition observe (m : gmap string node) (filepath size sha1 : string)
    : local_asset :=
  match m !! filepath with
  | None => Absent
  | Some (File data) =>
      if bool_decide (pretty (String.length data) = size)
         && bool_decide (SHA1.hexdigest data = sha1)
      then Matches else Differs
  | Some (Dir _) => Unreadable (is_a_directory filepath)
  end.

Definition is_dir (o : option node) : bool :=
  match o with Some (Dir _) => true | _ => false end.

Definition is404 (rep : reply) : bool :=
  match rep with
  | Responded r => bool_decide (status_code r = 404%Z)
  | Failed _ => false
  end.

(** The line a 404 on call [c] adds to the error log, and the node the log
    path holds after the calls [cs] when it held [o] before them. *)
Definition log_line (c : call) : string :=
  call_context c +:+ TAB +:+ call_url c +:+ NL.

Definition log_after (o : option node) (cs : list call) : option node :=
  fold_left (fun o c => if is404 (call_reply c)
                        then Some (File (file_data o +:+ log_line c)) else o)
            cs o.

Definition is_asset_call (filename : string) (c : call) : bool :=
  bool_decide (call_label c = "Image: " +:+ filename).
Definition is_desc_call (filename : string) (c : call) : bool :=
  bool_decide (call_label c = "Desc: " +:+ filename).

(** The error string a finished call leaves in the report of its entry. *)
Definition report_of (filename : string) (c : call) : list string :=
  if fst (call_result c) then []
  else if is_asset_call filename c
       then [filename +:+ " - image failed: " +:+ snd (call_result c)]
       else [filename +:+ " - desc failed: " +:+ snd (call_result c)].

Definition body_of (r : response) : string :=
  str_concat (filter (fun c => nonempty c = true) (chunks r)).

Definition http_error (r : response) : bool :=
  ((400 <=? status_code r) && (status_code r <? 600))%Z.

(** The outcomes of one transfer: the answer [rep] of the remote side, the
    arguments of the call, the file system before, the pair returned and the
    file system after. *)
Inductive transfer (url path ctx : string) (m : gmap string node)
    : reply -> bool * string -> gmap string node -> Prop :=
| T_failed e :
    transfer url path ctx m (Failed e) (false, exn_str e) m
| T_not_found r :
    status_code r = 404%Z -> is_dir (m !! ERROR_LOG_FILE) = false ->
    transfer url path ctx m (Responded r) (false, "404 Not Found")
      (<[ERROR_LOG_FILE :=
           File (file_data (m !! ERROR_LOG_FILE) +:+ ctx +:+ TAB +:+ url +:+ NL)]> m)
| T_not_found_unlogged r :
    status_code r = 404%Z -> is_dir (m !! ERROR_LOG_FILE) = true ->
    transfer url path ctx m (Responded r)
      (false, exn_str (is_a_directory ERROR_LOG_FILE)) m
| T_http_error r msg :
    status_code r <> 404%Z -> http_error r = true ->
    transfer url path ctx m (Responded r) (false, msg) m
| T_bad_length r e :
    status_code r <> 404%Z -> http_error r = false -> total r = Raise e ->
    transfer url path ctx m (Responded r) (false, exn_str e) m
| T_dest_dir r n :
    status_code r <> 404%Z -> http_error r = false -> total r = Return n ->
    is_dir (m !! path) = true ->
    transfer url path ctx m (Responded r) (false, exn_str (is_a_directory path)) m
| T_broken r n e :
    status_code r <> 404%Z -> http_error r = false -> total r = Return n ->
    is_dir (m !! path) = false -> broken r = Some e ->
    transfer url path ctx m (Responded r) (false, exn_str e)
      (<[path := File (body_of r)]> m)
| T_success r n :
    status_code r <> 404%Z -> http_error r = false -> total r = Return n ->
    is_dir (m !! path) = false -> broken r = None ->
    transfer url path ctx m (Responded r) (true, "")
      (<[path := File (body_of r)]> m).

(** A sequence of finished calls, played from request number [k] and file
    system [m]: every call got the answer the remote side gives to its
    request and changed the file system as [transfer] says. *)
Inductive played (nt : nat -> string -> reply)
    : nat -> gmap string node -> list call -> gmap string node -> Prop :=
| played_nil k m : played nt k m [] m
| played_cons k m c cs m1 m2 :
    call_reply c = nt k (call_url c) ->
    transfer (call_url c) (call_path c) (call_context c) m
             (call_reply c) (call_result c) m1 ->
    played nt (S k) m1 cs m2 ->
    played nt k m (c :: cs) m2.

Definition asset_call_of (filename url : string) (c : call) : Prop :=
  call_url c = url /\ call_path c = filepath_of filename
  /\ call_label c = "Image: " +:+ filename /\ call_context c = filename.

Definition desc_call_of (filename desc_url : string) (c : call) : Prop :=
  call_url c = desc_url /\ call_path c = descpath_of filename
  /\ call_label c = "Desc: " +:+ filename
  /\ call_context c = filename +:+ ".desc".

Definition unexpected (filename : string) (e : exn) : string :=
  filename +:+ " - unexpected error: " +:+ exn_str e.

(** The calls one entry makes and the error string its handler adds, by what
    is found at the asset path and by the outcome of formatting the
    description URL. *)
Definition entry_shape (template filename url size sha1 : string)
    (m : gmap string node) (new : list call) (tail : list string) : Prop :=
  match observe m (filepath_of filename) size sha1 with
  | Unreadable e => new = [] /\ tail = [unexpected filename e]
  | o =>
      exists pre,
        match o with
        | Matches => pre = []
        | _ => exists c, pre = [c] /\ asset_call_of filename url c
        end
        /\ match str_format template (quote filename) with
           | Return desc_url =>
               exists c, new = pre ++ [c] /\ desc_call_of filename desc_url c
                         /\ tail = []
           | Raise e => new = pre /\ tail = [unexpected filename e]
           end
  end.

(** The three blocks of the [try] body of [download_image_and_desc]:
    lines 58-66, lines 68-71 and lines 74-77. *)
Definition check_block (filename size sha1 : string) : St Frame bool :=
  (present <- lift (os_path_exists (filepath_of filename)) ;;
   if present : bool then
     actual_size <- lift (os_path_getsize (filepath_of filename)) ;;
     actual_sha1 <- lift (sha1_hash (filepath_of filename)) ;;
     ret (negb (bool_decide (pretty actual_size = size)
                && bool_decide (actual_sha1 = sha1)))
   else ret true)%st.

Definition image_block (filename url : string) (download_image : bool)
    : St Frame unit :=
  (if download_image then
     r <- lift (download_with_progress url (filepath_of filename)
                  ("Image: " +:+ filename) filename) ;;
     if fst r then ret tt
     else errors_append (filename +:+ " - image failed: " +:+ snd r)
   else ret tt)%st.

Definition desc_block (template filename : string) : St Frame unit :=
  (desc_url <- pure_result (str_format template (quote filename)) ;;
   r <- lift (download_with_progress desc_url (descpath_of filename)
                ("Desc: " +:+ filename) (filename +:+ ".desc")) ;;
   if fst r then ret tt
   else errors_append (filename +:+ " - desc failed: " +:+ snd r))%st.

(** A call that belongs to one of the entries of the manifest. *)
Definition entry_call (entries : list (list string)) (c : call) : Prop :=
  exists f u up sz sh,
    [f; u; up; sz; sh] ∈ entries
    /\ (asset_call_of f u c \/ exists du, desc_call_of f du c).



(** A base URL without braces. *)
Fixpoint brace_free (s : string) : bool :=
  match s with
  | EmptyString => true
  | String c s' =>
      negb (bool_decide (c = "{"%char)) && negb (bool_decide (c = "}"%char))
      && brace_free s'
  end.

(** ** Sample worlds *)

Definition ok_reply (url body : string) : reply :=
  Responded (Response 200 "OK" url (Return (Z.of_nat (String.length body)))
                      [body] None).

Definition not_found_reply (url : string) : reply :=
  Responded (Response 404 "Not Found" url (Return 0%Z) [] None).

(** A wiki on [http://w] that has [cat.png], three bytes long, and its
    description, and nothing else. *)
Definition sample_net : nat -> string -> reply :=
  fun _ url =>
    if bool_decide (url = "http://w/images/cat.png") then ok_reply url "abc"
    else if bool_decide (url = "http://w/wiki/Special:Export/File:cat.png")
         then ok_reply url "<mediawiki/>"
    else not_found_reply url.

Definition sample_world : World := mkWorld ∅ sample_net [].

Definition cat_entry : list string :=
  ["cat.png"; "http://w/images/cat.png"; "alice"; "3";
   "a9993e364706816aba3e25717850c26c9cd0d89d"].

Definition dog_entry : list string :=
  ["dog.png"; "http://w/images/dog.png"; "bob"; "7";
   "da39a3ee5e6b4b0d3255bfef95601890afd80709"].

Definition owl_entry : list string :=
  ["owl.png"; "http://w/images/owl.png"; "carol"; "5";
   "da39a3ee5e6b4b0d3255bfef95601890afd80709"].

(** A line of the manifest with the hash column missing. *)
Definition short_entry : list string :=
  ["owl.png"; "http://w/images/owl.png"; "carol"; "5"].


(** A world that still has the error log of an earlier run. *)
Definition stale_world : World :=
  mkWorld {[ERROR_LOG_FILE := File "old.png"]} sample_net [].

(** A directory where [cat.png] should be. *)
Definition dir_world : World :=
  mkWorld {["images/cat.png" := Dir 4096]} sample_net [].

(** A server that answers every request with 304, and a world that already
    has a copy of [cat.png]. *)
Definition not_modified_net : nat -> string -> reply :=
  fun _ url => Responded (Response 304 "Not Modified" url (Return 0%Z) [] None).

Definition not_modified_world : World :=
  mkWorld {["images/cat.png" := File "abc"]} not_modified_net [].

(** A server that answers every request with 503. *)
Definition unavailable (url : string) : response :=
  Response 503 "Service Unavailable" url (Return 0%Z) [] None.

Definition unavailable_world : World :=
  mkWorld ∅ (fun _ url => Responded (unavailable url)) [].





(** Strings of the digits [0-9] and the lowercase letters [a-f]. *)
Definition is_lower_hex_char (c : ascii) : bool :=
  let n := N_of_ascii c in
  ((48 <=? n) && (n <=? 57))%N || ((97 <=? n) && (n <=? 102))%N.

Fixpoint is_lower_hex (s : string) : bool :=
  match s with
  | EmptyString => true
  | String c s' => is_lower_hex_char c && is_lower_hex s'
  end.

(** The world [main] hands to the scheduler: the error log removed. *)
Definition after_reset (w : World) : World :=
  set_fs (delete ERROR_LOG_FILE) w.

(** ** The rest of the script: the prompt, the manifest and the summary *)

(** The ASCII characters [str.strip()] removes: the characters 9 to 13 and
    28 to 32.  The functions below are those of Python on strings of ASCII
    characters; a Python string can also begin or end with white space that
    is not ASCII, which they do not know. *)
Definition is_space (c : ascii) : bool :=
  let n := N_of_ascii c in
  ((9 <=? n) && (n <=? 13))%N || ((28 <=? n) && (n <=? 32))%N.

Fixpoint is_ascii (s : string) : bool :=
  match s with
  | EmptyString => true
  | String c s' => (N_of_ascii c <? 128)%N && is_ascii s'
  end.

(** [s.lstrip()] and [s.rstrip()] *)
Fixpoint lstrip (s : string) : string :=
  match s with
  | EmptyString => ""
  | String c s' => if is_space c then lstrip s' else s
  end.

Fixpoint rstrip (s : string) : string :=
  match s with
  | EmptyString => ""
  | String c s' =>
      match rstrip s' with
      | EmptyString => if is_space c then "" else String c ""
      | r => String c r
      end
  end.

(** [s.strip()] *)
Definition strip (s : string) : string := lstrip (rstrip s).

(** [s.rstrip('/')] *)
Fixpoint rstrip_slash (s : string) : string :=
  match s with
  | EmptyString => ""
  | String c s' =>
      match rstrip_slash s' with
      | EmptyString => if bool_decide (c = "/"%char) then "" else String c ""
      | r => String c r
      end
  end.

(** Line 21: [input(...).strip().rstrip('/')]. *)
Definition base_of_input (answer : string) : string :=
  rstrip_slash (strip answer).

(** [s.split(sep)] for a separator of one character. *)
Fixpoint split_on (sep : ascii) (s : string) : list string :=
  match s with
  | EmptyString => [""]
  | String c s' =>
      if bool_decide (c = sep) then "" :: split_on sep s'
      else match split_on sep s' with
           | f :: fs => String c f :: fs
           | [] => [String c ""]
           end
  end.

(** Reading a text file with universal newlines: [\r\n] and [\r] become
    [\n]. *)
Definition skip_lf (s : string) : string :=
  match s with
  | EmptyString => s
  | String c s' => if bool_decide (c = "010"%char) then s' else s
  end.

Fixpoint universal_newlines (s : string) : string :=
  match s with
  | EmptyString => ""
  | String c s' =>
      if bool_decide (c = "013"%char)
      then String "010" (universal_newlines (skip_lf s'))
      else String c (universal_newlines s')
  end.

(** [for line in f]: the lines, each with its [\n] when it has one. *)
Fixpoint lines_of (s : string) : list string :=
  match s with
  | EmptyString => []
  | String c s' =>
      if bool_decide (c = "010"%char) then String c "" :: lines_of s'
      else match lines_of s' with
           | l :: ls => String c l :: ls
           | [] => [String c ""]
           end
  end.

(** Lines 88-89, on the content of the manifest:
    [[line.strip().split('\t') for line in f if line.strip()]].  A manifest
    with characters outside ASCII is outside the model. *)
Definition parse_line (line : string) : option (list string) :=
  match strip line with
  | EmptyString => None
  | s => Some (split_on "009"%char s)
  end.

Definition parse_manifest (content : string) : result (list (list string)) :=
  if is_ascii content
  then Return (omap parse_line (lines_of (universal_newlines content)))
  else Raise (Exn NotModelled "manifest with characters outside ASCII").

(** [main] with lines 88-89: the manifest is opened once the error log is
    out of the way, and read whole before the first task starts. *)
Definition main_with_manifest (base_wiki_url : string) (sched : list nat)
    : IO (list string) :=
  (present <- os_path_exists ERROR_LOG_FILE ;;
   (if present : bool then os_remove ERROR_LOG_FILE else ret tt) ;;;
   content <- open_rb INPUT_FILE ;;
   entries <- pure_result (parse_manifest content) ;;
   results <- executor_map base_wiki_url entries sched ;;
   pure_result (extend_all results []))%st.



(** ** More vocabulary *)

(** Some character of [s] satisfies [P]. *)
Fixpoint has_char (P : ascii -> bool) (s : string) : bool :=
  match s with
  | EmptyString => false
  | String c s' => P c || has_char P s'
  end.

Definition is_tab (c : ascii) : bool := bool_decide (c = "009"%char).
Definition is_lf (c : ascii) : bool := bool_decide (c = "010"%char).
Definition is_cr (c : ascii) : bool := bool_decide (c = "013"%char).

(** A field that a line of the manifest can carry: ASCII, without a tab
    and without a line break. *)
Definition plain_field (f : string) : bool :=
  is_ascii f && negb (has_char is_tab f) && negb (has_char is_lf f)
  && negb (has_char is_cr f).

(** [sep.join(fields)] *)
Fixpoint join (sep : string) (fields : list string) : string :=
  match fields with
  | [] => ""
  | [f] => f
  | f :: rest => f +:+ sep +:+ join sep rest
  end.

(** A manifest written from its entries: the fields of an entry joined by
    tabs, one entry per line. *)
Definition render_manifest (entries : list (list string)) : string :=
  str_concat (map (fun e => join TAB e +:+ NL) entries).

(** An entry that can be written on a line and read back: its fields are
    plain and the line neither is empty nor begins or ends with white
    space. *)
Definition writable (e : list string) : Prop :=
  Forall (fun f => plain_field f = true) e
  /\ join TAB e <> ""
  /\ lstrip (join TAB e) = join TAB e
  /\ rstrip (join TAB e) = join TAB e.

(** The inverse of [quote]: [urllib.parse.unquote] on its output. *)
Definition unhex (c : ascii) : N :=
  let n := N_of_ascii c in
  (if n <? 58 then n - 48 else n - 55)%N.

Fixpoint unquote (s : string) : string :=
  match s with
  | EmptyString => ""
  | String c s' =>
      if bool_decide (c = "%"%char) then
        match s' with
        | String a (String b s'') =>
            String (ascii_of_N (16 * unhex a + unhex b)) (unquote s'')
        | _ => String c (unquote s')
        end
      else String c (unquote s')
  end.

(** The characters [quote] lets through or produces. *)
Definition url_char (c : ascii) : bool := is_safe c || bool_decide (c = "%"%char).

(** ** More sample worlds *)

(** A server whose content-length header is not a number, and one whose
    transfers break off after two bytes. *)
Definition bad_length (url : string) : response :=
  Response 200 "OK" url
    (Raise (Exn ValueError "invalid literal for int() with base 10: 'abc'"))
    ["abc"] None.

Definition bad_length_world : World :=
  mkWorld {["images/cat.png" := File "old"]}
          (fun _ url => Responded (bad_length url)) [].

Definition cut_short (url : string) : response :=
  Response 200 "OK" url (Return 3%Z) ["ab"]
    (Some (Exn RequestException "Connection broken: IncompleteRead")).

Definition cut_short_world : World :=
  mkWorld {["images/cat.png" := File "old"]}
          (fun _ url => Responded (cut_short url)) [].

(** The world after one run of the worker on [cat_entry]. *)
Definition cat_world : World :=
  snd (download_image_and_desc "http://w" cat_entry sample_world).

(** A manifest of two lines, and a world that has it. *)
Definition sample_manifest : string :=
  render_manifest [cat_entry; dog_entry].

Definition manifest_world : World :=
  mkWorld {[INPUT_FILE := File sample_manifest]} sample_net [].

(** A manifest as an editor may leave it: a line ending in [\r\n], blank
    lines, a line with spaces around it and an empty last column. *)
Definition untidy_manifest : string :=
  "cat.png" +:+ TAB +:+ "http://w/images/cat.png" +:+ TAB +:+ "alice"
  +:+ TAB +:+ "3" +:+ TAB +:+ "a9993e364706816aba3e25717850c26c9cd0d89d"
  +:+ String "013" NL +:+ NL +:+ "   " +:+ NL
  +:+ "  owl.png" +:+ TAB +:+ "http://w/images/owl.png" +:+ TAB +:+ "carol"
  +:+ TAB +:+ "5" +:+ TAB +:+ " " +:+ NL.

(** ** Strings and chunks *)

Lemma app_cons_str (a : ascii) (s t : string) :
  String a s +:+ t = String a (s +:+ t).
Proof. reflexivity. Qed.

Lemma app_nil_r_str (s : string) : s +:+ "" = s.
Proof.
  induction s as [|a s IH]; [reflexivity|]. by rewrite app_cons_str, IH.
Qed.

Lemma app_assoc_str (s1 s2 s3 : string) : (s1 +:+ s2) +:+ s3 = s1 +:+ s2 +:+ s3.
Proof.
  induction s1 as [|a s1 IH]; [reflexivity|]. by rewrite !app_cons_str, IH.
Qed.

Lemma str_take_drop (n : nat) (s : string) : str_take n s +:+ str_drop n s = s.
Proof.
  revert s. induction n as [|n IH]; intros [|a s]; try reflexivity.
  cbn [str_take str_drop]. by rewrite app_cons_str, IH.
Qed.

Lemma str_drop_length (n : nat) (s : string) :
  String.length (str_drop (S n) s) <= Nat.pred (String.length s).
Proof.
  revert n. induction s as [|a s IH]; intros n; [cbn; lia|].
  destruct n as [|n]; [cbn; lia|].
  change (String.length (str_drop (S n) s) <= String.length s).
  specialize (IH n). lia.
Qed.

Lemma str_take_empty (n : nat) (s : string) :
  str_take (S n) s = "" -> s = "".
Proof. by destruct s. Qed.

Lemma CHUNK_succ : exists n, CHUNK = S n.
Proof. by exists (Nat.pred CHUNK). Qed.

(** With fuel beyond the length of the file, the loop has fed the whole
    file to the hash object. *)
Lemma read_loop_all (fuel : nat) (f h : string) :
  String.length f < fuel -> read_loop fuel f h = h +:+ f.
Proof.
  destruct CHUNK_succ as [c Hc].
  revert f h. induction fuel as [|fuel IH]; intros f h Hlen; [lia|].
  cbn [read_loop]. rewrite Hc.
  destruct (str_take (S c) f) as [|a t] eqn:Ht.
  - apply str_take_empty in Ht as ->. by rewrite app_nil_r_str.
  - rewrite IH.
    + by rewrite app_assoc_str, <- Ht, str_take_drop.
    + pose proof (str_drop_length c f). destruct f; [done|]. cbn in *. lia.
Qed.

(** ** The transport function *)

Lemma set_fs_id (w : World) (m : gmap string node) :
  m = fs w -> set_fs (fun _ => m) w = w.
Proof. intros ->. by destruct w. Qed.

Lemma write_chunks_spec (path : string) (cs : list string) (w : World) (d : string) :
  fs w !! path = Some (File d) ->
  write_chunks path cs w
  = (Return tt,
     set_fs <[path := File (d +:+ str_concat (filter (fun c => nonempty c = true) cs))]> w).
Proof.
  revert w d. induction cs as [|c cs IH]; intros w d Hd.
  - cbn. unfold ret. f_equal. rewrite app_nil_r_str.
    destruct w as [m nt tr]; cbn in *. unfold set_fs; cbn.
    by rewrite insert_id.
  - cbn [write_chunks]. unfold bind at 1.
    destruct c as [|a c]; cbn [nonempty].
    + unfold ret at 1. rewrite (IH w d Hd). rewrite filter_cons_False; [done|].
      cbn. congruence.
    + unfold f_write at 1.
      erewrite IH; [|cbn; apply lookup_insert_eq].
      rewrite filter_cons_True by done.
      f_equal. destruct w as [m nt tr]; unfold set_fs; cbn in *.
      rewrite Hd. cbn [file_data str_concat].
      rewrite insert_insert_eq. by rewrite app_assoc_str.
Qed.

Lemma is_dir_false_lookup (m : gmap string node) (p : string) :
  is_dir (m !! p) = false -> m !! p = None \/ exists d, m !! p = Some (File d).
Proof. destruct (m !! p) as [[d|n]|]; cbn; intros; eauto; done. Qed.

(** Every call returns, leaves one record in the log of calls, and changes
    the file system as [transfer] says. *)
Lemma download_with_progress_spec (url path label ctx : string) (w : World) :
  exists res m',
    download_with_progress url path label ctx w
    = (Return res,
       mkWorld m' (net w)
         (trace w ++ [Call url path label ctx (net w (length (trace w)) url) res]))
    /\ transfer url path ctx (fs w) (net w (length (trace w)) url) res m'.
Proof.
  unfold download_with_progress, record_call, try_except.
  unfold bind at 1. unfold requests_get.
  destruct (net w (length (trace w)) url) as [r|e] eqn:Hnet.
  2:{ eexists _, _. split; [reflexivity|]. constructor. }
  case_bool_decide as H404.
  - (* 404 *)
    unfold bind at 1. unfold open_a.
    destruct (fs w !! ERROR_LOG_FILE) as [[d|n]|] eqn:Hlog.
    + eexists _, _. split; [reflexivity|]. cbn [fs set_fs].
      rewrite Hlog. cbn [file_data].
      pose proof (T_not_found url path ctx (fs w) r H404) as T.
      rewrite Hlog in T. apply T. done.
    + eexists _, _. split; [reflexivity|].
      apply T_not_found_unlogged; [done|]. by rewrite Hlog.
    + eexists _, _. split; [reflexivity|]. cbn [fs set_fs].
      rewrite lookup_insert_eq. cbn [file_data].
      rewrite insert_insert_eq.
      pose proof (T_not_found url path ctx (fs w) r H404) as T.
      rewrite Hlog in T. apply T. done.
  - unfold bind at 1. unfold raise_for_status.
    destruct ((400 <=? status_code r)%Z && (status_code r <? 500)%Z) eqn:H4.
    { eexists _, _. split; [reflexivity|].
      apply T_http_error; [done|]. unfold http_error. lia. }
    destruct ((500 <=? status_code r)%Z && (status_code r <? 600)%Z) eqn:H5.
    { eexists _, _. split; [reflexivity|].
      apply T_http_error; [done|]. unfold http_error. lia. }
    assert (http_error r = false) as Hok by (unfold http_error; lia).
    unfold ret at 1, bind at 1, pure_result.
    destruct (total r) as [n|e] eqn:Htot.
    2:{ eexists _, _. split; [reflexivity|]. by eapply T_bad_length. }
    unfold bind at 1, open_wb.
    destruct (is_dir (fs w !! path)) eqn:Hdir.
    { destruct (fs w !! path) as [[d|k]|] eqn:Hp; try done.
      eexists _, _. split; [reflexivity|].
      eapply T_dest_dir; eauto. by rewrite Hp. }
    assert (forall w0 : World,
      match fs w !! path with
      | Some (Dir _) => (Raise (is_a_directory path), w0)
      | _ => (Return tt, set_fs <[path:=File ""]> w0)
      end = (Return tt, set_fs <[path:=File ""]> w0)) as Hopen.
    { intros w0. destruct (fs w !! path) as [[d|k]|]; done. }
    rewrite Hopen. unfold bind at 1.
    erewrite write_chunks_spec by (cbn; apply lookup_insert_eq).
    destruct (broken r) as [e|] eqn:Hbr; unfold raise, ret;
      cbn [set_fs fs net trace]; rewrite insert_insert_eq;
      change ("" +:+ ?s) with s.
    + eexists _, _. split; [reflexivity|]. by eapply T_broken.
    + eexists _, _. split; [reflexivity|]. by eapply T_success.
Qed.

Lemma transfer_frame url path ctx m rep res m' (p : string) :
  transfer url path ctx m rep res m' ->
  p <> path -> p <> ERROR_LOG_FILE -> m' !! p = m !! p.
Proof. intros T ? ?. inversion T; subst; by rewrite ?lookup_insert_ne. Qed.

Lemma transfer_is_dir url path ctx m rep res m' (p : string) :
  transfer url path ctx m rep res m' -> is_dir (m' !! p) = is_dir (m !! p).
Proof.
  intros T. inversion T; subst; try done.
  - destruct (decide (p = ERROR_LOG_FILE)) as [->|];
      [rewrite lookup_insert_eq|by rewrite lookup_insert_ne]. cbn. congruence.
  - destruct (decide (p = path)) as [->|];
      [rewrite lookup_insert_eq|by rewrite lookup_insert_ne]. cbn. congruence.
  - destruct (decide (p = path)) as [->|];
      [rewrite lookup_insert_eq|by rewrite lookup_insert_ne]. cbn. congruence.
Qed.



Lemma played_app nt k m cs1 m1 cs2 m2 :
  played nt k m cs1 m1 -> played nt (k + length cs1) m1 cs2 m2 ->
  played nt k m (cs1 ++ cs2) m2.
Proof.
  induction 1 as [k m|k m c cs m1 m1' Hr T P IH]; cbn.
  - by rewrite Nat.add_0_r.
  - intros P2. econstructor; eauto. apply IH.
    by replace (S k + length cs) with (k + S (length cs)) by lia.
Qed.

Lemma played_one nt k m c m1 :
  call_reply c = nt k (call_url c) ->
  transfer (call_url c) (call_path c) (call_context c) m
           (call_reply c) (call_result c) m1 ->
  played nt k m [c] m1.
Proof. intros. econstructor; eauto. constructor. Qed.

Lemma played_is_dir nt k m cs m' (p : string) :
  played nt k m cs m' -> is_dir (m' !! p) = is_dir (m !! p).
Proof.
  induction 1 as [|k m c cs m1 m2 Hr T P IH]; [done|].
  rewrite IH. eapply transfer_is_dir; eauto.
Qed.

Lemma played_frame nt k m cs m' (p : string) :
  played nt k m cs m' ->
  Forall (fun c => call_path c <> p) cs -> p <> ERROR_LOG_FILE ->
  m' !! p = m !! p.
Proof.
  induction 1 as [|k m c cs m1 m2 Hr T P IH]; [done|].
  intros [Hc Hcs]%Forall_cons Hp. rewrite IH by done.
  eapply transfer_frame; eauto.
Qed.


Lemma log_after_is_dir o cs :
  is_dir o = false -> is_dir (log_after o cs) = false.
Proof.
  revert o. induction cs as [|c cs IH]; intros o Ho; [done|].
  cbn. apply IH. by destruct (is404 _).
Qed.


(** ** The worker *)

Lemma download_image_and_desc_blocks base f u up sz sh :
  download_image_and_desc base [f; u; up; sz; sh]
  = with_errors
      (try_except
         (download_image <- check_block f sz sh ;;
          image_block f u download_image ;;;
          desc_block (desc_url_template base) f)%st
         (fun e => errors_append (unexpected f e))).
Proof. reflexivity. Qed.

Lemma sha1_hash_file (p : string) (w : World) (d : string) :
  fs w !! p = Some (File d) -> sha1_hash p w = (Return (SHA1.hexdigest d), w).
Proof.
  intros H. unfold sha1_hash, bind, open_rb, ret. rewrite H.
  by rewrite read_loop_all by lia.
Qed.

Lemma check_block_spec f sz sh (w : World) (errs : list string) :
  check_block f sz sh (w, errs)
  = match observe (fs w) (filepath_of f) sz sh with
    | Absent | Differs => (Return true, (w, errs))
    | Matches => (Return false, (w, errs))
    | Unreadable e => (Raise e, (w, errs))
    end.
Proof.
  unfold check_block, observe, bind at 1, lift at 1, os_path_exists.
  destruct (fs w !! filepath_of f) as [[d|n]|] eqn:Hp; [| |done].
  - unfold bind at 1, lift at 1, os_path_getsize. rewrite Hp.
    unfold bind, lift. rewrite (sha1_hash_file _ _ d Hp). unfold ret.
    by destruct (bool_decide _ && bool_decide _).
  - unfold bind at 1, lift at 1, os_path_getsize. rewrite Hp.
    unfold bind, lift, sha1_hash, bind, open_rb. by rewrite Hp.
Qed.

Lemma label_image_desc (f : string) : "Desc: " +:+ f <> "Image: " +:+ f.
Proof. discriminate. Qed.

Lemma report_of_asset f c :
  call_label c = "Image: " +:+ f ->
  report_of f c = if fst (call_result c) then []
                  else [f +:+ " - image failed: " +:+ snd (call_result c)].
Proof.
  intros H. unfold report_of, is_asset_call.
  by rewrite bool_decide_eq_true_2.
Qed.

Lemma report_of_desc f c :
  call_label c = "Desc: " +:+ f ->
  report_of f c = if fst (call_result c) then []
                  else [f +:+ " - desc failed: " +:+ snd (call_result c)].
Proof.
  intros H. unfold report_of, is_asset_call.
  rewrite bool_decide_eq_false_2; [done|]. rewrite H. apply label_image_desc.
Qed.

Lemma image_block_spec f u (w : World) (errs : list string) :
  exists c m1,
    image_block f u true (w, errs)
    = (Return tt, (mkWorld m1 (net w) (trace w ++ [c]), errs ++ report_of f c))
    /\ asset_call_of f u c
    /\ played (net w) (length (trace w)) (fs w) [c] m1.
Proof.
  destruct (download_with_progress_spec u (filepath_of f) ("Image: " +:+ f) f w)
    as (res & m1 & Heq & T).
  eexists (Call _ _ _ _ _ res), m1. split; [|split].
  - unfold image_block, bind, lift. rewrite Heq. rewrite report_of_asset by done.
    cbn [call_result]. destruct res as [[] msg]; cbn [fst snd].
    + unfold ret. by rewrite app_nil_r.
    + done.
  - by repeat split.
  - by apply played_one.
Qed.

Lemma desc_block_spec tmpl f (w : World) (errs : list string) :
  match str_format tmpl (quote f) with
  | Return du =>
      exists c m1,
        desc_block tmpl f (w, errs)
        = (Return tt, (mkWorld m1 (net w) (trace w ++ [c]), errs ++ report_of f c))
        /\ desc_call_of f du c
        /\ played (net w) (length (trace w)) (fs w) [c] m1
  | Raise e => desc_block tmpl f (w, errs) = (Raise e, (w, errs))
  end.
Proof.
  destruct (str_format tmpl (quote f)) as [du|e] eqn:Hfmt.
  - destruct (download_with_progress_spec du (descpath_of f) ("Desc: " +:+ f)
                (f +:+ ".desc") w) as (res & m1 & Heq & T).
    eexists (Call _ _ _ _ _ res), m1. split; [|split].
    + unfold desc_block, bind, pure_result, lift. rewrite Hfmt, Heq.
      rewrite report_of_desc by done.
      cbn [call_result]. destruct res as [[] msg]; cbn [fst snd].
      * unfold ret. by rewrite app_nil_r.
      * done.
    + by repeat split.
    + by apply played_one.
  - unfold desc_block, bind, pure_result. by rewrite Hfmt.
Qed.

Lemma world_eta (w : World) : mkWorld (fs w) (net w) (trace w ++ []) = w.
Proof. destruct w. cbn. by rewrite app_nil_r. Qed.

(** The tail of the worker: the description block run from world [w1] with
    the errors [errs], inside the handler of the [try]. *)
Lemma desc_stage_spec tmpl f (w1 : World) (errs : list string) :
  exists m2 new tail,
    try_except (desc_block tmpl f) (fun e => errors_append (unexpected f e))
               (w1, errs)
    = (Return tt, (mkWorld m2 (net w1) (trace w1 ++ new),
                   errs ++ flat_map (report_of f) new ++ tail))
    /\ played (net w1) (length (trace w1)) (fs w1) new m2
    /\ match str_format tmpl (quote f) with
       | Return du => exists c, new = [c] /\ desc_call_of f du c /\ tail = []
       | Raise e => new = [] /\ tail = [unexpected f e]
       end.
Proof.
  pose proof (desc_block_spec tmpl f w1 errs) as H.
  unfold try_except.
  destruct (str_format tmpl (quote f)) as [du|e].
  - destruct H as (c & m1 & -> & Hc & P).
    exists m1, [c], []. split; [|split]; [|done|by exists c].
    cbn [flat_map]. by rewrite !app_nil_r.
  - rewrite H. exists (fs w1), [], [unexpected f e].
    split; [|split]; [|constructor|done].
    unfold errors_append. by rewrite world_eta.
Qed.

(** What the worker does on an entry of five fields: it returns, and its
    calls, the changes of the file system and the report are these. *)
Lemma download_image_and_desc_spec base f u up sz sh (w : World) :
  exists m' new tail,
    download_image_and_desc base [f; u; up; sz; sh] w
    = (Return (flat_map (report_of f) new ++ tail),
       mkWorld m' (net w) (trace w ++ new))
    /\ played (net w) (length (trace w)) (fs w) new m'
    /\ entry_shape (desc_url_template base) f u sz sh (fs w) new tail.
Proof.
  rewrite download_image_and_desc_blocks.
  unfold entry_shape.
  assert (forall pre m1 errs,
    played (net w) (length (trace w)) (fs w) pre m1 ->
    errs = flat_map (report_of f) pre ->
    exists m' new tail,
      return_errors
        (try_except (desc_block (desc_url_template base) f)
           (fun e => errors_append (unexpected f e))
           (mkWorld m1 (net w) (trace w ++ pre), errs))
      = (Return (flat_map (report_of f) new ++ tail),
         mkWorld m' (net w) (trace w ++ new))
      /\ played (net w) (length (trace w)) (fs w) new m'
      /\ match str_format (desc_url_template base) (quote f) with
         | Return du => exists c, new = pre ++ [c] /\ desc_call_of f du c /\ tail = []
         | Raise e => new = pre /\ tail = [unexpected f e]
         end) as Hdesc.
  { intros pre m1 errs P ->.
    destruct (desc_stage_spec (desc_url_template base) f
                (mkWorld m1 (net w) (trace w ++ pre))
                (flat_map (report_of f) pre)) as (m2 & new & tail & -> & P2 & Hs).
    exists m2, (pre ++ new), tail. cbn [net trace fs] in *.
    split; [|split].
    - by rewrite flat_map_app, <- !app_assoc.
    - eapply played_app; eauto. by rewrite <- length_app.
    - destruct (str_format _ _) as [du|e].
      + destruct Hs as (c & -> & Hc & ->). by exists c.
      + destruct Hs as [-> ->]. by rewrite app_nil_r. }
  unfold with_errors.
  assert (forall (body : bool -> St Frame unit) handler (st : Frame),
    try_except (download_image <- check_block f sz sh ;; body download_image)%st handler st
    = match check_block f sz sh st with
      | (Return d, st') => try_except (body d) handler st'
      | (Raise e, st') => handler e st'
      end) as Htry.
  { intros body handler st. unfold try_except, bind.
    by destruct (check_block f sz sh st) as [[d|e] st']. }
  rewrite (Htry (fun d => (image_block f u d ;;; desc_block (desc_url_template base) f)%st)).
  rewrite check_block_spec.
  assert (forall d (st : Frame),
    try_except (image_block f u d ;;; desc_block (desc_url_template base) f)%st
      (fun e => errors_append (unexpected f e)) st
    = match image_block f u d st with
      | (Return _, st') =>
          try_except (desc_block (desc_url_template base) f)
            (fun e => errors_append (unexpected f e)) st'
      | (Raise e, st') => errors_append (unexpected f e) st'
      end) as Htry2.
  { intros d st. unfold try_except, bind.
    by destruct (image_block f u d st) as [[?|e] st']. }
  destruct (observe (fs w) (filepath_of f) sz sh) as [| | |e] eqn:Hobs.
  - (* absent: the asset is fetched *)
    rewrite Htry2.
    destruct (image_block_spec f u w []) as (c & m1 & -> & Hc & P).
    destruct (Hdesc [c] m1 ([] ++ report_of f c) P) as (m' & new & tail & Heq & P' & Hs).
    { cbn. by rewrite app_nil_r. }
    exists m', new, tail. split; [exact Heq|]. split; [exact P'|].
    exists [c]. split; [by exists c|done].
  - (* matches: the asset is skipped *)
    rewrite Htry2. unfold image_block, ret.
    destruct (Hdesc [] (fs w) [] (played_nil _ _ _) eq_refl)
      as (m' & new & tail & Heq & P' & Hs).
    rewrite world_eta in Heq.
    exists m', new, tail. split; [exact Heq|]. split; [exact P'|].
    by exists [].
  - (* differs: the asset is fetched *)
    rewrite Htry2.
    destruct (image_block_spec f u w []) as (c & m1 & -> & Hc & P).
    destruct (Hdesc [c] m1 ([] ++ report_of f c) P) as (m' & new & tail & Heq & P' & Hs).
    { cbn. by rewrite app_nil_r. }
    exists m', new, tail. split; [exact Heq|]. split; [exact P'|].
    exists [c]. split; [by exists c|done].
  - (* unreadable: the handler runs at once *)
    exists (fs w), [], [unexpected f e]. unfold errors_append.
    rewrite world_eta. split; [done|]. split; [constructor|done].
Qed.

Lemma download_image_and_desc_malformed base (entry : list string) (w : World) :
  length entry <> 5 ->
  download_image_and_desc base entry w = (Raise (unpack_error (length entry)), w).
Proof.
  intros H. by destruct entry as [|? [|? [|? [|? [|? [|? ?]]]]]].
Qed.

Lemma five_fields (entry : list string) :
  length entry = 5 -> exists f u up sz sh, entry = [f; u; up; sz; sh].
Proof.
  intros H. destruct entry as [|f [|u [|up [|sz [|sh [|? ?]]]]]]; try done.
  by exists f, u, up, sz, sh.
Qed.

(** ** The scheduler *)

Lemma completion_order_elem (n : nat) (sched : list nat) (i : nat) :
  i ∈ completion_order n sched <-> i < n.
Proof.
  unfold completion_order. rewrite elem_of_app, list_elem_of_filter.
  rewrite elem_of_remove_dups, list_elem_of_filter, elem_of_seq.
  split.
  - intros [[? _]|[_ ?]]; lia.
  - intros Hi. destruct (decide (i ∈ sched)) as [Hin|Hout].
    + by left.
    + right. split; [tauto|lia].
Qed.

Lemma completion_order_NoDup (n : nat) (sched : list nat) :
  NoDup (completion_order n sched).
Proof.
  unfold completion_order. apply NoDup_app. split; [apply NoDup_remove_dups|].
  split.
  - intros i Hi [Hout _]%list_elem_of_filter. done.
  - apply NoDup_filter, NoDup_seq.
Qed.

(** Every task runs once, whatever the schedule. *)
Lemma completion_order_perm (n : nat) (sched : list nat) :
  completion_order n sched ≡ₚ seq 0 n.
Proof.
  apply NoDup_Permutation; [apply completion_order_NoDup|apply NoDup_seq|].
  intros i. rewrite completion_order_elem, elem_of_seq. lia.
Qed.

(** Induction over the tasks of a run. *)
Lemma run_tasks_ind base (entries : list (list string)) (P : journal -> World -> Prop)
    (order : list nat) (j0 : journal) (w0 : World) :
  P j0 w0 ->
  (forall j w i entry,
     P j w -> i ∈ order -> entries !! i = Some entry ->
     P (j ++ [(i, fst (download_image_and_desc base entry w))])
       (snd (download_image_and_desc base entry w))) ->
  P (fst (fold_left (run_task base entries) order (j0, w0)))
    (snd (fold_left (run_task base entries) order (j0, w0))).
Proof.
  revert j0 w0. induction order as [|i order IH]; intros j0 w0 H0 Hstep; [done|].
  cbn [fold_left].
  assert (P (fst (run_task base entries (j0, w0) i))
            (snd (run_task base entries (j0, w0) i))) as H1.
  { unfold run_task. cbn [fst snd].
    destruct (entries !! i) as [entry|] eqn:Hi; [|done].
    specialize (Hstep j0 w0 i entry H0 (list_elem_of_here _ _) Hi).
    by destruct (download_image_and_desc base entry w0). }
  destruct (run_task base entries (j0, w0) i) as [j1 w1].
  refine (IH _ _ H1 _). intros j w k e ? ? ?. apply Hstep; [done| |done].
  by apply list_elem_of_further.
Qed.

Lemma result_of_app_fresh (j : journal) (i k : nat) r :
  result_of (j ++ [(k, r)]) i
  = match result_of j i with
    | Some r' => Some r'
    | None => if bool_decide (k = i) then Some r else None
    end.
Proof.
  induction j as [|[k' r'] j IH]; cbn; [done|].
  by destruct (bool_decide (k' = i)).
Qed.

Lemma result_of_None (j : journal) (i : nat) :
  i ∉ j.*1 -> result_of j i = None.
Proof.
  induction j as [|[k r] j IH]; [done|]. cbn.
  intros [? ?]%not_elem_of_cons. rewrite bool_decide_eq_false_2 by done. auto.
Qed.

Lemma result_of_elem (j : journal) (i : nat) r :
  NoDup j.*1 -> (i, r) ∈ j -> result_of j i = Some r.
Proof.
  induction j as [|[k r'] j IH]; [by intros _ ?%elem_of_nil|].
  cbn. intros [Hk Hnd]%NoDup_cons [Heq|Hin]%elem_of_cons.
  - injection Heq as -> ->. by rewrite bool_decide_eq_true_2.
  - rewrite bool_decide_eq_false_2; [auto|].
    intros ->. apply Hk. apply list_elem_of_fmap. by exists (i, r).
Qed.

Lemma extend_all_returns (results : list (list string)) (acc : list string) :
  extend_all (Return <$> results) acc = Return (acc ++ concat results).
Proof.
  revert acc. induction results as [|r results IH]; intros acc; cbn.
  - by rewrite app_nil_r.
  - by rewrite IH, app_assoc.
Qed.

Lemma extend_all_Return_inv (rs : list (result (list string))) acc report :
  extend_all rs acc = Return report ->
  exists results, rs = Return <$> results /\ report = acc ++ concat results.
Proof.
  revert acc. induction rs as [|[r|e] rs IH]; intros acc; cbn; [| |done].
  - intros [= <-]. exists []. by rewrite app_nil_r.
  - intros (results & -> & ->)%IH. exists (r :: results). cbn.
    by rewrite app_assoc.
Qed.

Lemma length_concat_sum (results : list (list string)) :
  length (concat results) = sum_list (length <$> results).
Proof.
  induction results as [|r results IH]; [done|].
  cbn. by rewrite length_app, IH.
Qed.

(** [main] once the error log is out of the way. *)
Lemma main_eq base (entries : list (list string)) (sched : list nat) (w : World) :
  is_dir (fs w !! ERROR_LOG_FILE) = false ->
  main base entries sched w
  = (extend_all (omap (result_of (fst (run_tasks base entries sched (after_reset w))))
                      (seq 0 (length entries))) [],
     snd (run_tasks base entries sched (after_reset w))).
Proof.
  intros Hd.
  assert (main base entries sched w
          = (results <- executor_map base entries sched ;;
             pure_result (extend_all results []))%st (after_reset w)) as ->.
  { unfold main, bind at 1, os_path_exists, bind at 1, os_remove, ret.
    destruct (fs w !! ERROR_LOG_FILE) as [[d|n]|] eqn:Hlog;
      rewrite ?Hlog; [done|done|].
    f_equal. destruct w as [m nt tr]; unfold after_reset, set_fs; cbn in *.
    by rewrite delete_id. }
  unfold bind, executor_map, pure_result.
  by destruct (run_tasks base entries sched (after_reset w)) as [j w'].
Qed.

Lemma main_log_is_dir base (entries : list (list string)) (sched : list nat) (w : World) :
  is_dir (fs w !! ERROR_LOG_FILE) = true ->
  main base entries sched w = (Raise (is_a_directory ERROR_LOG_FILE), w).
Proof.
  intros Hd. unfold main, bind, os_path_exists, os_remove.
  by destruct (fs w !! ERROR_LOG_FILE) as [[d|n]|] eqn:Hlog; rewrite ?Hlog.
Qed.

(** ** Paths *)

Lemma str_length_app (s t : string) :
  String.length (s +:+ t) = String.length s + String.length t.
Proof.
  induction s as [|a s IH]; [done|]. rewrite app_cons_str. cbn. by rewrite IH.
Qed.


Lemma filepath_of_eq (f : string) :
  filepath_of f = if startswith "/" f then f else "images/" +:+ f.
Proof. unfold filepath_of, path_join. by destruct (startswith "/" f). Qed.

Lemma descpath_of_eq (f : string) :
  descpath_of f
  = if startswith "/" (f +:+ ".desc") then f +:+ ".desc"
    else "descs/" +:+ f +:+ ".desc".
Proof. unfold descpath_of, path_join. by destruct (startswith "/" _). Qed.






Lemma filepath_not_descpath (f : string) : filepath_of f <> descpath_of f.
Proof.
  intros H. apply (f_equal String.length) in H.
  rewrite filepath_of_eq, descpath_of_eq in H.
  assert (startswith "/" (f +:+ ".desc") = startswith "/" f) as Hs.
  { destruct f as [|a f]; [done|]. by rewrite app_cons_str. }
  rewrite Hs in H. destruct (startswith "/" f);
    rewrite ?str_length_app in H; cbn in H; lia.
Qed.

(** ** Runs *)

Lemma entry_shape_calls tmpl f u sz sh m new tail :
  entry_shape tmpl f u sz sh m new tail ->
  Forall (fun c => asset_call_of f u c \/ exists du, desc_call_of f du c) new.
Proof.
  unfold entry_shape. intros H.
  destruct (observe m (filepath_of f) sz sh);
    [destruct H as (pre & (c & -> & Hc) & Hnew)
    |destruct H as (pre & -> & Hnew)
    |destruct H as (pre & (c & -> & Hc) & Hnew)
    |destruct H as [-> _]; apply List.Forall_nil];
    (destruct (str_format tmpl (quote f)) as [du|e];
     [destruct Hnew as (c' & -> & Hc' & _)|destruct Hnew as [-> _]]);
    cbn [app];
    repeat (first [apply List.Forall_nil | apply List.Forall_cons]);
    eauto.
Qed.

(** The calls of a run are calls of its entries, played in order from the
    world the run starts in; the remote side is the same afterwards. *)
Lemma run_tasks_world base (entries : list (list string)) (order : list nat)
    (j0 : journal) (w0 : World) :
  let w' := snd (fold_left (run_task base entries) order (j0, w0)) in
  net w' = net w0
  /\ exists new,
       trace w' = trace w0 ++ new
       /\ played (net w0) (length (trace w0)) (fs w0) new (fs w')
       /\ Forall (entry_call entries) new.
Proof.
  cbn zeta.
  apply (run_tasks_ind base entries
           (fun _ w => net w = net w0
              /\ exists new, trace w = trace w0 ++ new
                   /\ played (net w0) (length (trace w0)) (fs w0) new (fs w)
                   /\ Forall (entry_call entries) new)).
  { split; [done|]. exists []. rewrite app_nil_r. repeat split; constructor. }
  intros j w i entry (Hnet & new & Htr & P & Fnew) _ Hi.
  destruct (decide (length entry = 5)) as [H5|H5].
  - destruct (five_fields entry H5) as (f & u & up & sz & sh & ->).
    destruct (download_image_and_desc_spec base f u up sz sh w)
      as (m' & new' & tail & -> & P' & Hs).
    cbn [fst snd net trace fs]. split; [done|].
    exists (new ++ new'). rewrite Htr, <- app_assoc. split; [done|]. split.
    + eapply played_app; eauto.
      rewrite <- Hnet. by rewrite <- length_app, <- Htr.
    + apply Forall_app. split; [done|].
      eapply Forall_impl; [by eapply entry_shape_calls|].
      intros c Hc. exists f, u, up, sz, sh. split; [|done].
      by eapply list_elem_of_lookup_2.
  - rewrite download_image_and_desc_malformed by done. cbn [fst snd].
    split; [done|]. by exists new.
Qed.

Lemma run_tasks_keys base (entries : list (list string)) (order : list nat)
    (j0 : journal) (w0 : World) :
  Forall (fun i => i < length entries) order ->
  (fst (fold_left (run_task base entries) order (j0, w0))).*1 = j0.*1 ++ order.
Proof.
  revert j0 w0. induction order as [|i order IH]; intros j0 w0 Hlt.
  { cbn. by rewrite app_nil_r. }
  apply Forall_cons in Hlt as [Hi Hlt]. cbn [fold_left].
  destruct (lookup_lt_is_Some_2 entries i Hi) as [entry Hentry].
  unfold run_task at 2. rewrite Hentry. cbn [fst snd].
  destruct (download_image_and_desc base entry w0) as [r w1].
  rewrite IH by done. rewrite fmap_app. cbn. by rewrite <- app_assoc.
Qed.

(** The journal of a run names every task once. *)
Lemma run_tasks_journal base (entries : list (list string)) (sched : list nat)
    (w : World) :
  (fst (run_tasks base entries sched w)).*1
  = completion_order (length entries) sched.
Proof.
  unfold run_tasks. rewrite run_tasks_keys; [done|].
  apply Forall_forall. intros i. by rewrite completion_order_elem.
Qed.

(** Every record of the journal is what the worker returned on its entry. *)
Lemma run_tasks_returns base (entries : list (list string)) (sched : list nat)
    (w : World) (i : nat) r :
  (i, r) ∈ fst (run_tasks base entries sched w) ->
  exists entry wi,
    entries !! i = Some entry /\ r = fst (download_image_and_desc base entry wi).
Proof.
  unfold run_tasks. revert i r.
  apply (run_tasks_ind base entries
           (fun j _ => forall i r, (i, r) ∈ j ->
              exists entry wi, entries !! i = Some entry
                /\ r = fst (download_image_and_desc base entry wi))).
  { intros i r []%elem_of_nil. }
  intros j w' k entry IH _ Hk i r [Hin|Hin]%elem_of_app; [by apply IH|].
  apply list_elem_of_singleton in Hin as [= -> ->]. by exists entry, w'.
Qed.

Lemma result_of_Some (j : journal) (i : nat) r :
  result_of j i = Some r -> (i, r) ∈ j.
Proof.
  induction j as [|[k r'] j IH]; [done|]. cbn.
  case_bool_decide as Hk.
  - intros [= ->]. subst. apply list_elem_of_here.
  - intros H. by apply list_elem_of_further, IH.
Qed.

Lemma omap_total {A B} (g : A -> option B) (d : B) (l : list A) :
  Forall (fun a => is_Some (g a)) l ->
  omap g l = (fun a => default d (g a)) <$> l.
Proof.
  induction 1 as [|a l [b Hb] _ IH]; [done|]. cbn. rewrite Hb. cbn.
  by rewrite IH.
Qed.

(** The results [executor.map] hands out: the one at position [i] is the
    one the journal holds for task [i]. *)
Lemma results_lookup base (entries : list (list string)) (sched : list nat)
    (w : World) (i : nat) r :
  let j := fst (run_tasks base entries sched w) in
  omap (result_of j) (seq 0 (length entries)) !! i = Some r <-> (i, r) ∈ j.
Proof.
  cbn zeta. set (j := fst (run_tasks base entries sched w)).
  assert (j.*1 = completion_order (length entries) sched) as Hkeys
    by apply run_tasks_journal.
  assert (NoDup j.*1) as Hnd by (rewrite Hkeys; apply completion_order_NoDup).
  assert (forall k, k < length entries -> is_Some (result_of j k)) as Hsome.
  { intros k Hk. assert (k ∈ j.*1) as Hin
      by (rewrite Hkeys; by apply completion_order_elem).
    apply list_elem_of_fmap in Hin as ([k' r'] & -> & Hin).
    exists r'. by apply result_of_elem. }
  rewrite (omap_total _ (Return [])).
  2:{ apply Forall_forall. intros k Hk%elem_of_seq. apply Hsome. lia. }
  rewrite list_lookup_fmap. split.
  - intros H. destruct (seq 0 (length entries) !! i) as [k|] eqn:Hseq; [|done].
    apply lookup_seq in Hseq as [-> Hlt]. cbn in H.
    destruct (Hsome i Hlt) as [r' Hr']. rewrite Hr' in H. cbn in H.
    injection H as <-. by apply result_of_Some.
  - intros Hin. assert (i < length entries) as Hlt.
    { apply completion_order_elem with (sched := sched). rewrite <- Hkeys.
      apply list_elem_of_fmap. by exists (i, r). }
    rewrite lookup_seq_lt by done. cbn.
    by rewrite (result_of_elem j i r).
Qed.

Lemma results_length base (entries : list (list string)) (sched : list nat)
    (w : World) :
  length (omap (result_of (fst (run_tasks base entries sched w)))
               (seq 0 (length entries)))
  = length entries.
Proof.
  set (j := fst (run_tasks base entries sched w)).
  assert (j.*1 = completion_order (length entries) sched) as Hkeys
    by apply run_tasks_journal.
  assert (NoDup j.*1) as Hnd by (rewrite Hkeys; apply completion_order_NoDup).
  rewrite (omap_total _ (Return [])).
  - by rewrite length_fmap, length_seq.
  - apply Forall_forall. intros k Hk%elem_of_seq.
    assert (k ∈ j.*1) as Hin
      by (rewrite Hkeys; apply completion_order_elem; lia).
    apply list_elem_of_fmap in Hin as ([k' r'] & -> & Hin).
    exists r'. by apply result_of_elem.
Qed.

(** ** Verification of the local asset *)

Lemma hex_digit_lower (x : N) : is_lower_hex_char (SHA1.hex_digit x) = true.
Proof.
  destruct x as [|p]; [done|].
  do 4 (destruct p as [p|p|]; try done).
Qed.

Lemma is_lower_hex_app (s t : string) :
  is_lower_hex (s +:+ t) = is_lower_hex s && is_lower_hex t.
Proof.
  induction s as [|c s IH]; [done|].
  rewrite app_cons_str. cbn [is_lower_hex]. by rewrite IH, andb_assoc.
Qed.

Lemma hex32_lower (x : N) :
  is_lower_hex (SHA1.hex32 x) = true /\ String.length (SHA1.hex32 x) = 8.
Proof.
  split; [|reflexivity].
  unfold SHA1.hex32. cbn [rev seq app fold_right is_lower_hex].
  by rewrite !hex_digit_lower.
Qed.

(** The digest is forty characters out of [0-9a-f]: an expected hash
    written with capital letters is never equal to it. *)
Lemma hexdigest_lower (s : string) :
  is_lower_hex (SHA1.hexdigest s) = true
  /\ String.length (SHA1.hexdigest s) = 40.
Proof.
  unfold SHA1.hexdigest. destruct (SHA1.digest _) as [a b c d e].
  rewrite !is_lower_hex_app, !str_length_app.
  destruct (hex32_lower a) as [-> ->], (hex32_lower b) as [-> ->],
    (hex32_lower c) as [-> ->], (hex32_lower d) as [-> ->],
    (hex32_lower e) as [-> ->].
  done.
Qed.



Lemma observe_Matches m p sz sh :
  observe m p sz sh = Matches
  <-> exists data, m !! p = Some (File data)
        /\ pretty (String.length data) = sz /\ SHA1.hexdigest data = sh.
Proof.
  unfold observe. destruct (m !! p) as [[d|n]|].
  - destruct (bool_decide _ && bool_decide _) eqn:Hb.
    + apply andb_true_iff in Hb as [?%bool_decide_eq_true ?%bool_decide_eq_true].
      split; [|done]. intros _. by exists d.
    + split; [done|]. intros (d' & [= <-] & H1 & H2).
      rewrite !bool_decide_eq_true_2 in Hb by done. done.
  - split; [done|]. by intros (? & ? & _).
  - split; [done|]. by intros (? & ? & _).
Qed.


Lemma observe_Unreadable m p sz sh e :
  observe m p sz sh = Unreadable e -> is_dir (m !! p) = true.
Proof.
  unfold observe. destruct (m !! p) as [[d|n]|]; try done.
  by destruct (bool_decide _ && bool_decide _).
Qed.



Lemma desc_call_path f du c : desc_call_of f du c -> call_path c = descpath_of f.
Proof. by intros (_ & H & _). Qed.

Lemma asset_call_path f u c : asset_call_of f u c -> call_path c = filepath_of f.
Proof. by intros (_ & H & _). Qed.


(** ** Reports *)

Lemma all_returns {A} (rs : list (result A)) :
  Forall (fun r => exists a, r = Return a) rs -> exists l, rs = Return <$> l.
Proof.
  induction 1 as [|r rs [a ->] _ [l ->]]; [by exists []|]. by exists (a :: l).
Qed.

Lemma download_image_and_desc_returns base (entry : list string) (w : World) :
  length entry = 5 ->
  exists errs, fst (download_image_and_desc base entry w) = Return errs.
Proof.
  intros (f & u & up & sz & sh & ->)%five_fields.
  destruct (download_image_and_desc_spec base f u up sz sh w)
    as (m' & new & tail & -> & _). eauto.
Qed.

(** With five fields in every entry, every task returns a list, and the
    list at position [i] is the one the journal holds for task [i]. *)
Lemma scheduler_results base (entries : list (list string)) (sched : list nat)
    (w : World) :
  Forall (fun e => length e = 5) entries ->
  let j := fst (run_tasks base entries sched w) in
  exists results : list (list string),
    omap (result_of j) (seq 0 (length entries)) = Return <$> results
    /\ length results = length entries
    /\ forall i errs, results !! i = Some errs <-> (i, Return errs) ∈ j.
Proof.
  intros Hwf. cbn zeta.
  destruct (all_returns
              (omap (result_of (fst (run_tasks base entries sched w)))
                    (seq 0 (length entries)))) as [results Hres].
  { apply Forall_forall. intros r Hr.
    apply list_elem_of_lookup in Hr as [i Hi].
    apply results_lookup in Hi.
    apply run_tasks_returns in Hi as (entry & wi & Hentry & ->).
    apply download_image_and_desc_returns.
    eapply Forall_forall in Hwf; [exact Hwf|].
    by eapply list_elem_of_lookup_2. }
  exists results. split; [done|]. split.
  - rewrite <- (results_length base entries sched w), Hres.
    by rewrite length_fmap.
  - intros i errs. rewrite <- results_lookup, Hres, list_lookup_fmap.
    destruct (results !! i); cbn; split; congruence.
Qed.


(** C6.  With five fields in every entry and an error log that can be
    removed: whatever the schedule, the journal of the run holds exactly one
    invocation of the worker per entry, each record being what
    [download_image_and_desc] returned on that entry; and the report [main]
    returns is the concatenation, over the entries, of the lists these
    invocations returned, so that its length is the sum of their lengths. *)
Theorem report_is_concatenation base (entries : list (list string))
    (sched : list nat) (w : World) :
  Forall (fun e => length e = 5) entries ->
  is_dir (fs w !! ERROR_LOG_FILE) = false ->
  let j := fst (run_tasks base entries sched (after_reset w)) in
  exists results : list (list string),
    j.*1 ≡ₚ seq 0 (length entries)
    /\ (forall i r, (i, r) ∈ j ->
          exists entry wi,
            entries !! i = Some entry
            /\ r = fst (download_image_and_desc base entry wi))
    /\ length results = length entries
    /\ (forall i errs, results !! i = Some errs <-> (i, Return errs) ∈ j)
    /\ fst (main base entries sched w) = Return (concat results)
    /\ length (concat results) = sum_list (length <$> results).
Proof.
  intros Hwf Hd. cbn zeta.
  destruct (scheduler_results base entries sched (after_reset w) Hwf)
    as (results & Hres & Hlen & Hlook).
  exists results. split; [|split; [|split; [|split; [|split]]]].
  - rewrite run_tasks_journal. apply completion_order_perm.
  - intros i r. apply run_tasks_returns.
  - done.
  - done.
  - rewrite main_eq by done. cbn [fst]. by rewrite Hres, extend_all_returns.
  - apply length_concat_sum.
Qed.

Lemma concat_two (results : list (list string)) (i k : nat) (ei ek : list string) :
  i < k -> results !! i = Some ei -> results !! k = Some ek ->
  exists l1 l2 l3, concat results = l1 ++ ei ++ l2 ++ ek ++ l3.
Proof.
  intros Hik Hi Hk.
  rewrite <- (take_drop_middle results i ei Hi).
  assert (drop (S i) results !! (k - S i) = Some ek) as Hk'.
  { rewrite lookup_drop. by replace (S i + (k - S i)) with k by lia. }
  rewrite <- (take_drop_middle _ _ ek Hk').
  exists (concat (take i results)),
         (concat (take (k - S i) (drop (S i) results))),
         (concat (drop (S (k - S i)) (drop (S i) results))).
  rewrite concat_app. cbn [concat]. rewrite concat_app. cbn [concat].
  done.
Qed.

(** C10.  Whenever [main] returns a report, whatever the order in which the
    tasks completed, the report lists the errors entry by entry in the
    order of the manifest: if the invocation on entry [i] returned [ei] and
    the one on a later entry [k] returned [ek], every string of [ei] stands
    before every string of [ek]. *)
Theorem report_in_manifest_order base (entries : list (list string))
    (sched : list nat) (w : World) (report : list string) :
  fst (main base entries sched w) = Return report ->
  let j := fst (run_tasks base entries sched (after_reset w)) in
  j.*1 = completion_order (length entries) sched
  /\ forall i k ei ek,
       i < k -> (i, Return ei) ∈ j -> (k, Return ek) ∈ j ->
       exists l1 l2 l3, report = l1 ++ ei ++ l2 ++ ek ++ l3.
Proof.
  intros Hmain. cbn zeta. split; [apply run_tasks_journal|].
  destruct (is_dir (fs w !! ERROR_LOG_FILE)) eqn:Hd.
  { rewrite main_log_is_dir in Hmain by done. done. }
  rewrite main_eq in Hmain by done. cbn [fst] in Hmain.
  apply extend_all_Return_inv in Hmain as (results & Hres & ->).
  intros i k ei ek Hik Hi Hk. cbn [app].
  apply results_lookup in Hi, Hk. rewrite Hres, list_lookup_fmap in Hi, Hk.
  destruct (results !! i) as [ei'|] eqn:Hi'; [|done].
  destruct (results !! k) as [ek'|] eqn:Hk'; [|done].
  cbn in Hi, Hk. injection Hi as ->. injection Hk as ->.
  by eapply concat_two.
Qed.

(** ** Not-found answers and other failures *)





(** C5 (as amended).  A call of the transport function returns, without
    raising, a failure pair and leaves the whole file system, the error log
    included, as it was, when [requests.get] raises (the message is that of
    the exception) and when the status of the response is in 400..599 and
    is not 404 (the message is the one [raise_for_status] builds from the
    status).  A transfer that breaks off after a status that is not an
    error returns the failure pair with the message of the exception and
    leaves the error log as it was, whatever it wrote to the destination.
    A failed call stands for exactly one string in the report of its
    entry, and the worker returns that report: it is the strings of its
    calls followed by what its handler added. *)
Theorem transfer_failure_is_data url path label ctx (w : World) :
  (forall e,
     net w (length (trace w)) url = Failed e ->
     exists w',
       download_with_progress url path label ctx w
       = (Return (false, exn_str e), w')
       /\ fs w' = fs w)
  /\ (forall r,
        net w (length (trace w)) url = Responded r ->
        (400 <= status_code r < 600)%Z -> status_code r <> 404%Z ->
        exists w',
          download_with_progress url path label ctx w
          = (Return (false,
                     pretty (status_code r)
                     +:+ (if (status_code r <? 500)%Z
                          then " Client Error: " else " Server Error: ")
                     +:+ reason r +:+ " for url: " +:+ resp_url r), w')
          /\ fs w' = fs w)
  /\ (forall r n e,
        net w (length (trace w)) url = Responded r ->
        http_error r = false -> total r = Return n ->
        is_dir (fs w !! path) = false -> broken r = Some e ->
        path <> ERROR_LOG_FILE ->
        exists w',
          download_with_progress url path label ctx w
          = (Return (false, exn_str e), w')
          /\ fs w' !! ERROR_LOG_FILE = fs w !! ERROR_LOG_FILE)
  /\ (forall f c, fst (call_result c) = false -> length (report_of f c) = 1)
  /\ (forall base f u up sz sh,
        exists new tail,
          fst (download_image_and_desc base [f; u; up; sz; sh] w)
          = Return (flat_map (report_of f) new ++ tail)
          /\ trace (snd (download_image_and_desc base [f; u; up; sz; sh] w))
             = trace w ++ new).
Proof.
  destruct (download_with_progress_spec url path label ctx w)
    as (res & m' & Heq & T).
  split; [|split; [|split; [|split]]].
  - intros e He. rewrite He in T. inversion T; subst.
    eexists. split; [exact Heq|done].
  - intros r Hr Hrange H4. clear T Heq res m'.
    unfold download_with_progress, record_call, try_except, bind at 1,
      requests_get.
    rewrite Hr. rewrite bool_decide_eq_false_2 by done.
    unfold bind at 1, raise_for_status.
    destruct (status_code r <? 500)%Z eqn:Hlt.
    + replace ((400 <=? status_code r)%Z && true) with true by lia.
      eexists. split; [reflexivity|done].
    + replace ((400 <=? status_code r)%Z && false) with false by lia.
      replace ((500 <=? status_code r)%Z && (status_code r <? 600)%Z)
        with true by lia.
      eexists. split; [reflexivity|done].
  - intros r n e Hr He Ht Hdir Hb Hp. rewrite Hr in T.
    assert (status_code r <> 404%Z) as H4.
    { unfold http_error in He. lia. }
    inversion T; simplify_eq; try congruence.
    eexists. split; [exact Heq|]. cbn [fs]. by rewrite lookup_insert_ne.
  - intros f c Hc. unfold report_of. rewrite Hc.
    by destruct (is_asset_call f c).
  - intros base f u up sz sh.
    destruct (download_image_and_desc_spec base f u up sz sh w)
      as (m1 & new & tail & -> & _). by exists new, tail.
Qed.

(** ** The error log over a run *)



(** ** The description URL *)

Lemma str_format_plain (s rest value : string) :
  brace_free s = true ->
  str_format (s +:+ rest) value
  = match str_format rest value with
    | Return t => Return (s +:+ t)
    | Raise e => Raise e
    end.
Proof.
  induction s as [|c s IH]; intros Hb.
  - change ("" +:+ rest) with rest. by destruct (str_format rest value).
  - cbn in Hb. apply andb_true_iff in Hb as [Hc Hs].
    apply andb_true_iff in Hc as [Ho Hcl].
    apply negb_true_iff, bool_decide_eq_false in Ho, Hcl.
    rewrite app_cons_str. cbn [str_format].
    rewrite !bool_decide_eq_false_2 by done.
    rewrite IH by done. by destruct (str_format rest value).
Qed.

Lemma desc_url_format (base value : string) :
  brace_free base = true ->
  str_format (desc_url_template base) value
  = Return (base +:+ "/wiki/Special:Export/File:" +:+ value).
Proof.
  intros Hb. unfold desc_url_template. rewrite str_format_plain by done.
  change (str_format "/wiki/Special:Export/File:{filename}" value)
    with (Return ("/wiki/Special:Export/File:" +:+ value +:+ "")).
  by rewrite app_nil_r_str.
Qed.

(** C4 (as amended).  For an entry of five fields whose asset path does not
    hold a directory, and a base URL without braces, the worker returns and
    its calls are: first the asset call, if the asset was absent or
    differed, and then, whatever that call returned, exactly one description
    call, on the URL [base/wiki/Special:Export/File:] followed by the
    percent-encoded filename, with the description path as destination. *)
Theorem description_fetched_once base f u up sz sh (w : World) :
  brace_free base = true ->
  is_dir (fs w !! filepath_of f) = false ->
  exists errs w' pre c,
    download_image_and_desc base [f; u; up; sz; sh] w = (Return errs, w')
    /\ trace w' = trace w ++ pre ++ [c]
    /\ desc_call_of f (base +:+ "/wiki/Special:Export/File:" +:+ quote f) c
    /\ (pre = [] \/ exists a, pre = [a] /\ asset_call_of f u a)
    /\ filter (fun c => is_desc_call f c = true) (pre ++ [c]) = [c].
Proof.
  intros Hb Hd.
  destruct (download_image_and_desc_spec base f u up sz sh w)
    as (m' & new & tail & Heq & P & Hs).
  unfold entry_shape in Hs. rewrite desc_url_format in Hs by done.
  assert (forall c, desc_call_of f
            (base +:+ "/wiki/Special:Export/File:" +:+ quote f) c ->
          is_desc_call f c = true) as Hdesc.
  { intros c (_ & _ & Hl & _). unfold is_desc_call.
    by rewrite bool_decide_eq_true_2. }
  assert (forall a, asset_call_of f u a -> is_desc_call f a = false) as Hasset.
  { intros a (_ & _ & Hl & _). unfold is_desc_call.
    rewrite bool_decide_eq_false_2; [done|]. rewrite Hl. intros H.
    symmetry in H. by apply label_image_desc in H. }
  destruct (observe (fs w) (filepath_of f) sz sh) as [| | |e] eqn:Hobs.
  - destruct Hs as (pre & (a & -> & Ha) & c & -> & Hc & _).
    eexists _, _, [a], c. split; [exact Heq|]. split; [done|]. split; [done|].
    split; [right; by exists a|]. cbn [app].
    rewrite filter_cons_False by (rewrite (Hasset a Ha); done).
    by rewrite filter_cons_True by (by apply Hdesc).
  - destruct Hs as (pre & -> & c & -> & Hc & _).
    eexists _, _, [], c. split; [exact Heq|]. split; [done|]. split; [done|].
    split; [by left|]. cbn [app].
    by rewrite filter_cons_True by (by apply Hdesc).
  - destruct Hs as (pre & (a & -> & Ha) & c & -> & Hc & _).
    eexists _, _, [a], c. split; [exact Heq|]. split; [done|]. split; [done|].
    split; [right; by exists a|]. cbn [app].
    rewrite filter_cons_False by (rewrite (Hasset a Ha); done).
    by rewrite filter_cons_True by (by apply Hdesc).
  - apply observe_Unreadable in Hobs. congruence.
Qed.

(** ** A second run *)





(** ** Destination paths *)


(** ** The digest on known messages *)

Example sha1_empty :
  SHA1.hexdigest "" = "da39a3ee5e6b4b0d3255bfef95601890afd80709".
Proof. vm_compute. reflexivity. Qed.

Example sha1_abc :
  SHA1.hexdigest "abc" = "a9993e364706816aba3e25717850c26c9cd0d89d".
Proof. vm_compute. reflexivity. Qed.

Example sha1_two_blocks :
  SHA1.hexdigest "abcdbcdecdefdefgefghfghighijhijkijkljklmklmnlmnomnopnopq"
  = "84983e441c3bd26ebaae4aa1f95129e5e54670f1".
Proof. vm_compute. reflexivity. Qed.

(** ** The properties on the sample worlds *)




(** C4, as stated, fails: with a directory at the asset path the worker
    returns one "unexpected error" string and has made no call at all, so
    the description was not fetched. *)
Lemma directory_at_asset_path_skips_description :
  fst (download_image_and_desc "http://w" cat_entry dir_world)
  = Return ["cat.png - unexpected error: [Errno 21] Is a directory: 'images/cat.png'"]
  /\ trace (snd (download_image_and_desc "http://w" cat_entry dir_world)) = [].
Proof. split; vm_compute; reflexivity. Qed.

Lemma description_fetched_once_witness :
  exists errs w' pre c,
    download_image_and_desc "http://w" cat_entry sample_world = (Return errs, w')
    /\ trace w' = trace sample_world ++ pre ++ [c]
    /\ desc_call_of "cat.png"
         ("http://w" +:+ "/wiki/Special:Export/File:" +:+ quote "cat.png") c
    /\ (pre = [] \/ exists a, pre = [a]
                              /\ asset_call_of "cat.png" "http://w/images/cat.png" a)
    /\ filter (fun c => is_desc_call "cat.png" c = true) (pre ++ [c]) = [c].
Proof.
  apply (description_fetched_once "http://w" "cat.png" "http://w/images/cat.png"
           "alice" "3" "a9993e364706816aba3e25717850c26c9cd0d89d" sample_world).
  - reflexivity.
  - vm_compute. reflexivity.
Defined.

(** C5, as stated, fails: a response with status 304, which is neither 2xx
    nor 404, is taken as a success, and the copy already on disk is
    replaced by the empty body. *)
Lemma not_modified_counts_as_success :
  fst (download_with_progress "http://w/images/cat.png" "images/cat.png"
         "Image: cat.png" "cat.png" not_modified_world)
  = Return (true, "")
  /\ fs not_modified_world !! "images/cat.png" = Some (File "abc")
  /\ fs (snd (download_with_progress "http://w/images/cat.png" "images/cat.png"
                "Image: cat.png" "cat.png" not_modified_world))
       !! "images/cat.png"
     = Some (File "").
Proof. repeat split; vm_compute; reflexivity. Qed.

Lemma transfer_failure_is_data_witness :
  exists w',
    download_with_progress "http://w/images/cat.png" "images/cat.png"
      "Image: cat.png" "cat.png" unavailable_world
    = (Return (false,
               "503 Server Error: Service Unavailable for url: http://w/images/cat.png"),
       w')
    /\ fs w' = fs unavailable_world.
Proof.
  apply (proj1 (proj2 (transfer_failure_is_data "http://w/images/cat.png"
                         "images/cat.png" "Image: cat.png" "cat.png"
                         unavailable_world))
           (unavailable "http://w/images/cat.png")).
  - reflexivity.
  - cbn. lia.
  - cbn. lia.
Defined.

Lemma report_is_concatenation_witness :
  exists results : list (list string),
    length results = 2
    /\ fst (main "http://w" [cat_entry; dog_entry] [1] sample_world)
       = Return (concat results).
Proof.
  destruct (report_is_concatenation "http://w" [cat_entry; dog_entry] [1]
              sample_world)
    as (results & _ & _ & Hlen & _ & Hmain & _).
  - repeat apply List.Forall_cons; try apply List.Forall_nil; reflexivity.
  - vm_compute. reflexivity.
  - exists results. split; [exact Hlen|exact Hmain].
Defined.






Lemma report_in_manifest_order_witness :
  exists l1 l2 l3,
    ["dog.png - image failed: 404 Not Found";
     "dog.png - desc failed: 404 Not Found";
     "owl.png - image failed: 404 Not Found";
     "owl.png - desc failed: 404 Not Found"]
    = l1 ++ ["dog.png - image failed: 404 Not Found";
             "dog.png - desc failed: 404 Not Found"]
         ++ l2 ++ ["owl.png - image failed: 404 Not Found";
                   "owl.png - desc failed: 404 Not Found"] ++ l3.
Proof.
  apply (proj2 (report_in_manifest_order "http://w"
                  [dog_entry; cat_entry; owl_entry] [2; 1]
                  sample_world _ ltac:(vm_compute; reflexivity)) 0 2).
  - lia.
  - vm_compute. apply list_elem_of_lookup. exists 2. reflexivity.
  - vm_compute. apply list_elem_of_lookup. exists 0. reflexivity.
Defined.

(** The size is compared as a string and the digest letter by letter: a
    copy of [cat.png] of the right content is fetched again when the
    manifest writes the size as [03] or the hash in capital letters. *)
Example size_compared_as_string :
  observe {["images/cat.png" := File "abc"]} (filepath_of "cat.png")
          "03" "a9993e364706816aba3e25717850c26c9cd0d89d" = Differs
  /\ observe {["images/cat.png" := File "abc"]} (filepath_of "cat.png")
             "3" "A9993E364706816ABA3E25717850C26C9CD0D89D" = Differs
  /\ observe {["images/cat.png" := File "abc"]} (filepath_of "cat.png")
             "3" "a9993e364706816aba3e25717850c26c9cd0d89d" = Matches.
Proof. repeat split; vm_compute; reflexivity. Qed.

(** One run over a manifest of two entries, the second one missing on the
    wiki: the report, the error log and the files afterwards. *)
Example sample_run :
  let w' := snd (main "http://w" [cat_entry; dog_entry] [1] sample_world) in
  fst (main "http://w" [cat_entry; dog_entry] [1] sample_world)
  = Return ["dog.png - image failed: 404 Not Found";
            "dog.png - desc failed: 404 Not Found"]
  /\ fs w' !! ERROR_LOG_FILE
     = Some (File ("dog.png" +:+ TAB +:+ "http://w/images/dog.png" +:+ NL
                   +:+ "dog.png.desc" +:+ TAB
                   +:+ "http://w/wiki/Special:Export/File:dog.png" +:+ NL))
  /\ fs w' !! "images/cat.png" = Some (File "abc")
  /\ fs w' !! "images/dog.png" = None
  /\ call_label <$> trace w'
     = ["Image: dog.png"; "Desc: dog.png"; "Image: cat.png"; "Desc: cat.png"].
Proof. cbn zeta. repeat split; vm_compute; reflexivity. Qed.

Example quote_sample : quote "a b/c~d.png" = "a%20b/c~d.png".
Proof. reflexivity. Qed.

(** * More of the script *)

(** ** The transport function, beyond not-found answers *)

Lemma str_concat_nonempty (cs : list string) :
  str_concat (filter (fun c => nonempty c = true) cs) = str_concat cs.
Proof.
  induction cs as [|c cs IH]; [done|]. destruct c as [|a c].
  - rewrite filter_cons_False by (cbn; congruence). done.
  - rewrite filter_cons_True by done. cbn [str_concat]. by rewrite IH.
Qed.

Lemma http_error_false (r : response) :
  http_error r = false <-> (status_code r < 400 \/ 600 <= status_code r)%Z.
Proof. unfold http_error. lia. Qed.

(** Case analysis on a transfer, against what is known of the response. *)
Ltac transfer_cases T :=
  inversion T; subst;
  repeat match goal with
         | H1 : ?x = _, H2 : ?x = _ |- _ => rewrite H1 in H2
         end;
  simplify_eq; try congruence; try (unfold http_error in *; lia).

Lemma transfer_success_inv url path ctx m rep msg m' :
  transfer url path ctx m rep (true, msg) m' ->
  exists r n,
    rep = Responded r /\ http_error r = false /\ total r = Return n
    /\ broken r = None /\ is_dir (m !! path) = false
    /\ msg = "" /\ m' = <[path := File (body_of r)]> m.
Proof. intros T. inversion T; subst. by exists r, n. Qed.

Lemma transfer_present url path ctx m rep res m' (p : string) :
  transfer url path ctx m rep res m' -> is_Some (m !! p) -> is_Some (m' !! p).
Proof.
  intros T Hp. inversion T; subst; try done.
  - destruct (decide (p = ERROR_LOG_FILE)) as [->|];
      [rewrite lookup_insert_eq|rewrite lookup_insert_ne]; done.
  - destruct (decide (p = path)) as [->|];
      [rewrite lookup_insert_eq|rewrite lookup_insert_ne]; done.
  - destruct (decide (p = path)) as [->|];
      [rewrite lookup_insert_eq|rewrite lookup_insert_ne]; done.
Qed.



(** X3.  A call of the transport function writes nowhere but at its
    destination and in the error log, removes nothing, and never puts a
    file where a directory was nor a directory where a file was. *)
Theorem transport_touches_destination_and_log url path label ctx (w : World) :
  let w' := snd (download_with_progress url path label ctx w) in
  (forall p, p <> path -> p <> ERROR_LOG_FILE -> fs w' !! p = fs w !! p)
  /\ (forall p, is_Some (fs w !! p) -> is_Some (fs w' !! p))
  /\ (forall p, is_dir (fs w' !! p) = is_dir (fs w !! p)).
Proof.
  cbn zeta.
  destruct (download_with_progress_spec url path label ctx w)
    as (res & m' & -> & T).
  cbn [snd fs]. split; [|split].
  - intros p Hp Hl. by eapply transfer_frame.
  - intros p. by eapply transfer_present.
  - intros p. by eapply transfer_is_dir.
Qed.

(** X4.  What goes wrong before the destination is opened leaves every
    file as it was, the destination included: a content-length header that
    [int] refuses, and a destination that is a directory.  The call returns
    [False] with the message of the exception. *)
Theorem early_failure_changes_nothing url path label ctx (w : World) r :
  net w (length (trace w)) url = Responded r ->
  (status_code r < 400 \/ 600 <= status_code r)%Z ->
  (forall e,
     total r = Raise e ->
     exists w',
       download_with_progress url path label ctx w
       = (Return (false, exn_str e), w')
       /\ fs w' = fs w)
  /\ (forall n,
        total r = Return n -> is_dir (fs w !! path) = true ->
        exists w',
          download_with_progress url path label ctx w
          = (Return (false, exn_str (is_a_directory path)), w')
          /\ fs w' = fs w).
Proof.
  intros Hnet Hst.
  destruct (download_with_progress_spec url path label ctx w)
    as (res & m' & Heq & T).
  rewrite Hnet in T. apply http_error_false in Hst.
  split.
  - intros e He. transfer_cases T.
    eexists. split; [exact Heq|done].
  - intros n Hn Hd. transfer_cases T.
    eexists. split; [exact Heq|done].
Qed.

(** X5.  A transfer that breaks off after the destination was opened
    leaves there the chunks received before the break, and nothing of what
    the destination held before; the call returns [False] with the message
    of the exception. *)
Theorem broken_transfer_leaves_partial_file url path label ctx (w : World) r n e :
  net w (length (trace w)) url = Responded r ->
  (status_code r < 400 \/ 600 <= status_code r)%Z ->
  total r = Return n ->
  is_dir (fs w !! path) = false ->
  broken r = Some e ->
  exists w',
    download_with_progress url path label ctx w
    = (Return (false, exn_str e), w')
    /\ fs w' = <[path := File (str_concat (chunks r))]> (fs w).
Proof.
  intros Hnet Hst Htot Hdir Hbr.
  destruct (download_with_progress_spec url path label ctx w)
    as (res & m' & Heq & T).
  rewrite Hnet in T. apply http_error_false in Hst.
  transfer_cases T.
  eexists. split; [exact Heq|]. cbn [fs]. unfold body_of.
  by rewrite str_concat_nonempty.
Qed.

(** ** The digest of a file *)

(** X6.  [sha1_hash] on a file returns the SHA-1 digest of its whole
    content, whatever its length is against the size of the reads, as forty
    characters out of [0-9a-f]; on a directory and on a missing path it
    raises; in every case the world is left as it was. *)
Theorem sha1_hash_whole_file (p : string) (w : World) :
  sha1_hash p w
  = match fs w !! p with
    | Some (File data) => (Return (SHA1.hexdigest data), w)
    | Some (Dir _) => (Raise (is_a_directory p), w)
    | None => (Raise (no_such_file p), w)
    end
  /\ (forall data,
        is_lower_hex (SHA1.hexdigest data) = true
        /\ String.length (SHA1.hexdigest data) = 40).
Proof.
  split; [|apply hexdigest_lower].
  destruct (fs w !! p) as [[d|k]|] eqn:Hp.
  - by apply sha1_hash_file.
  - unfold sha1_hash, bind, open_rb. by rewrite Hp.
  - unfold sha1_hash, bind, open_rb. by rewrite Hp.
Qed.

(** ** The worker, entry by entry *)

Lemma played_one_inv nt k m c m' :
  played nt k m [c] m' ->
  call_reply c = nt k (call_url c)
  /\ transfer (call_url c) (call_path c) (call_context c) m
              (call_reply c) (call_result c) m'.
Proof.
  intros P. inversion P as [|? ? ? ? m1 ? Hr T P']; subst.
  inversion P'; subst. done.
Qed.

Lemma played_cons_inv nt k m c cs m' :
  played nt k m (c :: cs) m' ->
  exists m1,
    call_reply c = nt k (call_url c)
    /\ transfer (call_url c) (call_path c) (call_context c) m
                (call_reply c) (call_result c) m1
    /\ played nt (S k) m1 cs m'.
Proof. intros P. inversion P; subst. eauto. Qed.

Lemma report_of_nil f c : report_of f c = [] <-> fst (call_result c) = true.
Proof.
  unfold report_of. destruct (fst (call_result c)); [done|].
  by destruct (is_asset_call f c).
Qed.

(** X7.  The report of an entry of five fields has at most two strings, for
    at most two calls: first an "image failed" string, if the asset call
    failed, and then a "desc failed" string, if the description call
    failed, or the "unexpected error" string of the handler.  The remote
    side is the same afterwards. *)
Theorem worker_report_shape base f u up sz sh (w : World) :
  exists errs w' new img rest,
    download_image_and_desc base [f; u; up; sz; sh] w = (Return errs, w')
    /\ net w' = net w
    /\ trace w' = trace w ++ new
    /\ length new <= 2
    /\ errs = img ++ rest
    /\ (img = [] \/ exists msg, img = [f +:+ " - image failed: " +:+ msg])
    /\ (rest = []
        \/ exists msg, rest = [f +:+ " - desc failed: " +:+ msg]
                       \/ rest = [f +:+ " - unexpected error: " +:+ msg]).
Proof.
  destruct (download_image_and_desc_spec base f u up sz sh w)
    as (m' & new & tail & Heq & P & Hs).
  unfold entry_shape in Hs.
  assert (forall pre,
    (pre = [] \/ exists a, pre = [a] /\ asset_call_of f u a) ->
    match str_format (desc_url_template base) (quote f) with
    | Return du => exists c, new = pre ++ [c] /\ desc_call_of f du c /\ tail = []
    | Raise e => new = pre /\ tail = [unexpected f e]
    end ->
    exists img rest,
      length new <= 2
      /\ flat_map (report_of f) new ++ tail = img ++ rest
      /\ (img = [] \/ exists msg, img = [f +:+ " - image failed: " +:+ msg])
      /\ (rest = []
          \/ exists msg, rest = [f +:+ " - desc failed: " +:+ msg]
                         \/ rest = [f +:+ " - unexpected error: " +:+ msg]))
    as Hgen.
  { intros pre Hpre Hnew.
    assert (length pre <= 1
            /\ (flat_map (report_of f) pre = []
                \/ exists msg, flat_map (report_of f) pre
                               = [f +:+ " - image failed: " +:+ msg]))
      as [Hlen Himg].
    { destruct Hpre as [->|(a & -> & Ha)]; [split; [cbn; lia|by left]|].
      split; [cbn; lia|]. cbn [flat_map]. rewrite app_nil_r.
      destruct Ha as (_ & _ & Hl & _). rewrite report_of_asset by done.
      destruct (fst (call_result a)); [by left|right; eauto]. }
    exists (flat_map (report_of f) pre).
    destruct (str_format _ _) as [du|e].
    - destruct Hnew as (c & -> & Hc & ->).
      exists (report_of f c). rewrite length_app. cbn [length].
      split; [lia|]. split; [by rewrite flat_map_app, app_nil_r; cbn;
                                rewrite app_nil_r|].
      split; [done|]. destruct Hc as (_ & _ & Hl & _).
      rewrite report_of_desc by done.
      destruct (fst (call_result c)); [by left|right; eauto].
    - destruct Hnew as [-> ->]. exists [unexpected f e].
      split; [lia|]. split; [done|]. split; [done|].
      right. exists (exn_str e). by right. }
  destruct (observe (fs w) (filepath_of f) sz sh) as [| | |e].
  - destruct Hs as (pre & (a & -> & Ha) & Hnew).
    destruct (Hgen [a]) as (img & rest & ? & Herr & ? & ?); [eauto|done|].
    rewrite Herr in Heq. by eexists _, _, new, img, rest.
  - destruct Hs as (pre & -> & Hnew).
    destruct (Hgen []) as (img & rest & ? & Herr & ? & ?); [eauto|done|].
    rewrite Herr in Heq. by eexists _, _, new, img, rest.
  - destruct Hs as (pre & (a & -> & Ha) & Hnew).
    destruct (Hgen [a]) as (img & rest & ? & Herr & ? & ?); [eauto|done|].
    rewrite Herr in Heq. by eexists _, _, new, img, rest.
  - destruct Hs as [-> ->]. cbn in Heq.
    eexists _, _, [], [], [unexpected f e]. split; [exact Heq|].
    repeat split; try done; [cbn; lia|by left|].
    right. exists (exn_str e). by right.
Qed.

(** X8.  When the worker returns an empty report, every call it made
    returned [True], and afterwards the asset path holds a file and the
    description path holds the body the description request was answered
    with. *)
Theorem clean_entry_has_both_files base f u up sz sh (w : World) :
  fst (download_image_and_desc base [f; u; up; sz; sh] w) = Return [] ->
  let w' := snd (download_image_and_desc base [f; u; up; sz; sh] w) in
  exists new c r data,
    trace w' = trace w ++ new
    /\ Forall (fun c => fst (call_result c) = true) new
    /\ last new = Some c
    /\ call_reply c = Responded r
    /\ fs w' !! descpath_of f = Some (File (str_concat (chunks r)))
    /\ fs w' !! filepath_of f = Some (File data).
Proof.
  destruct (download_image_and_desc_spec base f u up sz sh w)
    as (m' & new & tail & -> & P & Hs).
  cbn [fst snd trace fs]. intros [= Herr]. cbn zeta.
  apply app_eq_nil in Herr as [Hrep ->].
  assert (Forall (fun c => fst (call_result c) = true) new) as Hok.
  { clear -Hrep. induction new as [|c new IH]; [done|].
    cbn in Hrep. apply app_eq_nil in Hrep as [Hc Hn].
    constructor; [by apply (report_of_nil f)|auto]. }
  assert (forall m1 c,
    played (net w) (S (length (trace w))) m1 [c] m'
    \/ played (net w) (length (trace w)) m1 [c] m' ->
    call_path c = descpath_of f -> fst (call_result c) = true ->
    exists r, call_reply c = Responded r
              /\ m' !! descpath_of f = Some (File (str_concat (chunks r)))
              /\ m' !! filepath_of f = m1 !! filepath_of f) as Hdesc.
  { intros m1 c Hp Hpath Hres.
    assert (transfer (call_url c) (call_path c) (call_context c) m1
                     (call_reply c) (call_result c) m') as T
      by (destruct Hp as [Hp|Hp]; by apply played_one_inv in Hp as [_ ?]).
    destruct (call_result c) as [[] msg] eqn:Hcr; [|done].
    apply transfer_success_inv in T
      as (r & n & Hr & _ & _ & _ & _ & _ & ->).
    exists r. split; [done|]. rewrite Hpath. unfold body_of.
    rewrite str_concat_nonempty, lookup_insert_eq. split; [done|].
    rewrite lookup_insert_ne; [done|]. intros H. symmetry in H.
    by apply filepath_not_descpath in H. }
  unfold entry_shape in Hs.
  destruct (observe (fs w) (filepath_of f) sz sh) as [| | |e] eqn:Hobs;
    [| | |by destruct Hs as [_ [=]]];
    destruct Hs as (pre & Hpre & Hs);
    (destruct (str_format _ _) as [du|e]; [|by destruct Hs as [_ [=]]]);
    destruct Hs as (c & -> & Hc & _).
  - (* absent: the asset call wrote the file *)
    destruct Hpre as (a & -> & Ha).
    apply played_cons_inv in P as (m1 & _ & Ta & P).
    pose proof Hok as Hall.
    apply Forall_cons in Hok as [Hra Hrc]. apply Forall_cons in Hrc as [Hrc _].
    destruct (Hdesc m1 c (or_introl P) (desc_call_path _ _ _ Hc) Hrc)
      as (r & Hr & Hd & Hf).
    destruct (call_result a) as [[] msg] eqn:Hcr; [|done].
    apply transfer_success_inv in Ta as (ra & n & _ & _ & _ & _ & _ & _ & ->).
    rewrite (asset_call_path _ _ _ Ha), lookup_insert_eq in Hf.
    exists [a; c], c, r, (body_of ra).
    split; [done|]. split; [exact Hall|]. by repeat split.
  - (* matches: the file was there *)
    subst pre. cbn [app] in *.
    pose proof Hok as Hall.
    apply Forall_cons in Hok as [Hrc _].
    destruct (Hdesc (fs w) c (or_intror P) (desc_call_path _ _ _ Hc) Hrc)
      as (r & Hr & Hd & Hf).
    apply observe_Matches in Hobs as (data & Hdata & _).
    exists [c], c, r, data.
    split; [done|]. split; [exact Hall|]. repeat split; try done.
    by rewrite Hf.
  - (* differs: the asset call replaced the file *)
    destruct Hpre as (a & -> & Ha).
    apply played_cons_inv in P as (m1 & _ & Ta & P).
    pose proof Hok as Hall.
    apply Forall_cons in Hok as [Hra Hrc]. apply Forall_cons in Hrc as [Hrc _].
    destruct (Hdesc m1 c (or_introl P) (desc_call_path _ _ _ Hc) Hrc)
      as (r & Hr & Hd & Hf).
    destruct (call_result a) as [[] msg] eqn:Hcr; [|done].
    apply transfer_success_inv in Ta as (ra & n & _ & _ & _ & _ & _ & _ & ->).
    rewrite (asset_call_path _ _ _ Ha), lookup_insert_eq in Hf.
    exists [a; c], c, r, (body_of ra).
    split; [done|]. split; [exact Hall|]. by repeat split.
Qed.



(** ** Whole runs *)

Lemma played_present nt k m cs m' (p : string) :
  played nt k m cs m' -> is_Some (m !! p) -> is_Some (m' !! p).
Proof.
  induction 1 as [|k m c cs m1 m2 Hr T P IH]; [done|].
  intros Hp. apply IH. by eapply transfer_present.
Qed.

Lemma entry_call_paths (entries : list (list string)) (cs : list call) (p : string) :
  Forall (entry_call entries) cs ->
  (forall f u up sz sh,
     [f; u; up; sz; sh] ∈ entries -> p <> filepath_of f /\ p <> descpath_of f) ->
  Forall (fun c => call_path c <> p) cs.
Proof.
  intros Hcalls Hp. eapply Forall_impl; [exact Hcalls|].
  intros c (f & u & up & sz & sh & Hin & [Hc|[du Hc]]);
    destruct (Hp f u up sz sh Hin) as [H1 H2].
  - rewrite (asset_call_path _ _ _ Hc). congruence.
  - rewrite (desc_call_path _ _ _ Hc). congruence.
Qed.

(** X11.  A run writes nowhere but at the asset paths and the description
    paths of the five-field entries of its manifest and in the error log,
    and it removes nothing but the error log: every other path holds
    afterwards what it held before, and whatever was there before the run
    is still there. *)
Theorem run_touches_manifest_paths_only base (entries : list (list string))
    (sched : list nat) (w : World) (p : string) :
  p <> ERROR_LOG_FILE ->
  let w' := snd (main base entries sched w) in
  (is_Some (fs w !! p) -> is_Some (fs w' !! p))
  /\ ((forall f u up sz sh,
         [f; u; up; sz; sh] ∈ entries ->
         p <> filepath_of f /\ p <> descpath_of f) ->
      fs w' !! p = fs w !! p).
Proof.
  intros Hp. cbn zeta.
  destruct (is_dir (fs w !! ERROR_LOG_FILE)) eqn:Hd.
  { rewrite main_log_is_dir by done. done. }
  rewrite main_eq by done. cbn [snd]. unfold run_tasks.
  destruct (run_tasks_world base entries
              (completion_order (length entries) sched) [] (after_reset w))
    as (Hnet & new & Htr & P & Hcalls).
  assert (fs (after_reset w) !! p = fs w !! p) as Hreset.
  { unfold after_reset. cbn [fs set_fs]. by apply lookup_delete_ne. }
  split.
  - intros Hsome. eapply played_present; [exact P|]. by rewrite Hreset.
  - intros Hout. rewrite <- Hreset.
    eapply played_frame; [exact P| |done]. by eapply entry_call_paths.
Qed.

(** X12.  A manifest with an entry that has not five fields makes [main]
    raise, once the tasks are done, the unpacking error of the first such
    entry in the order of the manifest, whatever the order in which the
    tasks completed. *)
Theorem first_malformed_entry_raises base (entries : list (list string))
    (sched : list nat) (w : World) (i : nat) (entry : list string) :
  is_dir (fs w !! ERROR_LOG_FILE) = false ->
  entries !! i = Some entry ->
  length entry <> 5 ->
  (forall k e, k < i -> entries !! k = Some e -> length e = 5) ->
  fst (main base entries sched w) = Raise (unpack_error (length entry)).
Proof.
  intros Hd Hi Hbad Hbefore. rewrite main_eq by done. cbn [fst].
  set (rs := omap _ _).
  assert (forall k r, rs !! k = Some r ->
            exists e wk, entries !! k = Some e
                         /\ r = fst (download_image_and_desc base e wk)) as Hrs.
  { intros k r Hk. apply results_lookup in Hk.
    by apply run_tasks_returns in Hk. }
  assert (length rs = length entries) as Hlen by apply results_length.
  assert (exists r, rs !! i = Some r) as [ri Hri].
  { apply lookup_lt_is_Some. rewrite Hlen. by eapply lookup_lt_Some. }
  assert (ri = Raise (unpack_error (length entry))) as ->.
  { destruct (Hrs i ri Hri) as (e & wk & He & ->). simplify_eq.
    by rewrite download_image_and_desc_malformed. }
  clearbody rs. clear Hlen. generalize (@nil string) as acc.
  revert i Hi Hbefore Hri Hrs. clear Hd.
  revert entries. induction rs as [|r rs IH]; intros entries i Hi Hbefore Hri Hrs acc.
  { done. }
  destruct i as [|i].
  - cbn in Hri. by injection Hri as ->.
  - destruct (Hrs 0 r eq_refl) as (e & wk & He & ->).
    assert (length e = 5) as H5 by (eapply (Hbefore 0); [lia|done]).
    destruct (download_image_and_desc_returns base e wk H5) as [errs ->].
    cbn [extend_all]. destruct entries as [|e0 entries]; [done|].
    apply (IH entries i); [done| |done|].
    + intros k e' Hk He'. apply (Hbefore (S k)); [lia|done].
    + intros k r' Hk. apply (Hrs (S k) r' Hk).
Qed.








(** ** The description URL of a filename *)

Lemma is_safe_not_percent (c : ascii) : is_safe c = true -> c <> "%"%char.
Proof. intros H ->. by vm_compute in H. Qed.

Lemma unhex_HEX (c : ascii) :
  ascii_of_N (16 * unhex (HEX_digit (N_of_ascii c / 16))
              + unhex (HEX_digit (N_of_ascii c mod 16))) = c.
Proof. destruct c as [[] [] [] [] [] [] [] []]; reflexivity. Qed.

Lemma HEX_digit_safe (x : N) : is_safe (HEX_digit x) = true.
Proof.
  destruct x as [|p]; [done|].
  do 4 (destruct p as [p|p|]; try done).
Qed.

Lemma unquote_quote (s : string) : unquote (quote s) = s.
Proof.
  induction s as [|c s IH]; [done|]. cbn [quote].
  destruct (is_safe c) eqn:Hc.
  - cbn [unquote]. rewrite bool_decide_eq_false_2 by by apply is_safe_not_percent.
    by rewrite IH.
  - cbn [unquote]. rewrite bool_decide_eq_true_2 by done.
    by rewrite unhex_HEX, IH.
Qed.

Lemma quote_url_chars (s : string) :
  has_char (fun c => negb (url_char c)) (quote s) = false.
Proof.
  induction s as [|c s IH]; [done|]. cbn [quote].
  destruct (is_safe c) eqn:Hc; cbn [has_char]; unfold url_char at 1.
  - by rewrite Hc.
  - cbn [has_char]. unfold url_char at 1 2.
    by rewrite !HEX_digit_safe, IH.
Qed.

(** X15.  Percent-encoding loses nothing and lets nothing through: the
    filename can be read back from [quote filename], which is made of
    letters, digits, [_ . - ~ /] and [%] alone; so, with a base URL without
    braces, two different filenames never get the same description URL. *)
Theorem quote_is_faithful (base f1 f2 : string) :
  unquote (quote f1) = f1
  /\ has_char (fun c => negb (url_char c)) (quote f1) = false
  /\ (brace_free base = true -> f1 <> f2 ->
      str_format (desc_url_template base) (quote f1)
      <> str_format (desc_url_template base) (quote f2)).
Proof.
  split; [apply unquote_quote|]. split; [apply quote_url_chars|].
  intros Hb Hne. rewrite !desc_url_format by done. intros [= H].
  apply (inj (String.app base)) in H.
  apply (inj (String.app "/wiki/Special:Export/File:")) in H.
  apply Hne. by rewrite <- (unquote_quote f1), <- (unquote_quote f2), H.
Qed.

(** ** The manifest *)

Lemma has_char_app P (s t : string) :
  has_char P (s +:+ t) = has_char P s || has_char P t.
Proof.
  induction s as [|c s IH]; [done|].
  rewrite app_cons_str. cbn [has_char]. by rewrite IH, orb_assoc.
Qed.

Lemma split_on_cons (sep : ascii) (s : string) :
  exists f fs, split_on sep s = f :: fs.
Proof.
  induction s as [|c s (f & fs & IH)]; [by exists "", []|].
  cbn [split_on]. case_bool_decide; [eauto|]. rewrite IH. eauto.
Qed.

Lemma split_on_chars P (sep : ascii) (s : string) :
  has_char P s = false ->
  Forall (fun f => has_char P f = false) (split_on sep s).
Proof.
  induction s as [|c s IH]; [by repeat constructor|].
  cbn [has_char split_on]. intros [Hc Hs]%orb_false_iff.
  case_bool_decide; [constructor; [done|auto]|].
  destruct (split_on_cons sep s) as (f & fs & Heq). rewrite Heq in IH |- *.
  specialize (IH Hs). apply Forall_cons in IH as [Hf Hfs].
  constructor; [|done]. cbn [has_char]. by rewrite Hc, Hf.
Qed.

Lemma split_on_no_sep (sep : ascii) (s : string) :
  Forall (fun f => has_char (fun c => bool_decide (c = sep)) f = false)
         (split_on sep s).
Proof.
  induction s as [|c s IH]; [by repeat constructor|].
  cbn [split_on]. case_bool_decide as Hc; [constructor; [done|auto]|].
  destruct (split_on_cons sep s) as (f & fs & Heq). rewrite Heq in IH |- *.
  apply Forall_cons in IH as [Hf Hfs].
  constructor; [|done]. cbn [has_char]. by rewrite bool_decide_eq_false_2.
Qed.

Lemma split_on_last (sep : ascii) (s : string) (c : ascii) :
  last_char s = Some c -> c <> sep ->
  exists f, last (split_on sep s) = Some f /\ f <> "".
Proof.
  induction s as [|a s IH]; [done|]. intros Hl Hc.
  destruct s as [|b s].
  - cbn in Hl. injection Hl as ->. cbn [split_on].
    rewrite bool_decide_eq_false_2 by done. by eexists.
  - change (last_char (String a (String b s))) with (last_char (String b s)) in Hl.
    remember (String b s) as s' eqn:E. clear E.
    destruct (IH Hl Hc) as (f & Hf & Hne).
    cbn [split_on].
    destruct (split_on_cons sep s') as (f0 & fs & Heq). rewrite Heq in Hf |- *.
    case_bool_decide.
    + exists f. split; [exact Hf|done].
    + destruct fs as [|f1 fs].
      * by eexists.
      * exists f. split; [exact Hf|done].
Qed.

Lemma lstrip_head (s : string) c t :
  lstrip s = String c t -> is_space c = false.
Proof.
  induction s as [|a s IH]; [done|]. cbn [lstrip].
  destruct (is_space a) eqn:Ha; [done|]. by intros [= <- _].
Qed.

Lemma lstrip_last (s : string) :
  lstrip s <> "" -> last_char (lstrip s) = last_char s.
Proof.
  induction s as [|a s IH]; [done|]. cbn [lstrip].
  destruct (is_space a); [|done]. intros Hne. rewrite IH by done.
  destruct s; [done|]. done.
Qed.

Lemma lstrip_chars P (s : string) :
  has_char P s = false -> has_char P (lstrip s) = false.
Proof.
  induction s as [|a s IH]; [done|]. cbn [lstrip has_char].
  intros [Ha Hs]%orb_false_iff. destruct (is_space a); [auto|].
  cbn [has_char]. by rewrite Ha, Hs.
Qed.

Lemma rstrip_last (s : string) c :
  last_char (rstrip s) = Some c -> is_space c = false.
Proof.
  induction s as [|a s IH]; [done|]. cbn [rstrip].
  destruct (rstrip s) as [|b r] eqn:Hr.
  - destruct (is_space a) eqn:Ha; [done|]. by intros [= <-].
  - intros Hl. by apply IH.
Qed.

Lemma rstrip_chars P (s : string) :
  has_char P s = false -> has_char P (rstrip s) = false.
Proof.
  induction s as [|a s IH]; [done|]. cbn [rstrip has_char].
  intros [Ha Hs]%orb_false_iff. specialize (IH Hs).
  destruct (rstrip s) as [|b r].
  - destruct (is_space a); [done|]. cbn. by rewrite Ha.
  - cbn [has_char] in *. by rewrite Ha, IH.
Qed.

Lemma rstrip_newline (s : string) : rstrip (s +:+ NL) = rstrip s.
Proof.
  induction s as [|a s IH]; [done|].
  rewrite app_cons_str. cbn [rstrip]. by rewrite IH.
Qed.

Lemma universal_newlines_no_cr (s : string) :
  has_char is_cr (universal_newlines s) = false.
Proof.
  assert (has_char is_cr (universal_newlines s) = false
          /\ has_char is_cr (universal_newlines (skip_lf s)) = false)
    as [H _]; [|done].
  induction s as [|a s [IH1 IH2]]; [done|].
  assert (has_char is_cr (universal_newlines (String a s)) = false) as H.
  { cbn [universal_newlines]. case_bool_decide as Ha.
    - cbn [has_char]. by rewrite IH2.
    - cbn [has_char]. rewrite IH1. unfold is_cr.
      by rewrite bool_decide_eq_false_2. }
  split; [done|]. unfold skip_lf. by case_bool_decide.
Qed.

Lemma lines_of_chars P (s : string) :
  has_char P s = false -> Forall (fun l => has_char P l = false) (lines_of s).
Proof.
  induction s as [|c s IH]; [constructor|].
  cbn [has_char lines_of]. intros [Hc Hs]%orb_false_iff. specialize (IH Hs).
  case_bool_decide.
  - constructor; [cbn; by rewrite Hc|done].
  - destruct (lines_of s) as [|l ls].
    + repeat constructor. cbn. by rewrite Hc.
    + apply Forall_cons in IH as [Hl Hls]. constructor; [|done].
      cbn [has_char]. by rewrite Hc, Hl.
Qed.

(** A line is free of line feeds, but for the one that may end it. *)
Lemma lines_of_shape (s : string) :
  Forall (fun l => exists body, has_char is_lf body = false
                                /\ (l = body \/ l = body +:+ NL))
         (lines_of s).
Proof.
  induction s as [|c s IH]; [constructor|]. cbn [lines_of].
  case_bool_decide as Hc.
  - constructor; [|done]. exists "". split; [done|]. right. by subst.
  - assert (has_char is_lf (String c "") = false) as Hc'.
    { cbn. unfold is_lf. by rewrite bool_decide_eq_false_2. }
    destruct (lines_of s) as [|l ls].
    + repeat constructor. exists (String c ""). auto.
    + apply Forall_cons in IH as [(body & Hb & Hl) Hls]. constructor; [|done].
      exists (String c body). split.
      * cbn [has_char] in *. apply orb_false_iff in Hc' as [-> _]. done.
      * destruct Hl as [->| ->]; auto.
Qed.

Lemma strip_line_no_lf (l : string) :
  (exists body, has_char is_lf body = false /\ (l = body \/ l = body +:+ NL)) ->
  has_char is_lf (strip l) = false.
Proof.
  intros (body & Hb & [->| ->]); unfold strip; rewrite ?rstrip_newline;
    by apply lstrip_chars, rstrip_chars.
Qed.

Lemma is_space_tab : is_space "009" = true.
Proof. reflexivity. Qed.

(** X16.  What the manifest is parsed into.  Every entry has at least one
    field; its first field, the filename, is not empty and does not begin
    with white space; its last field is not empty; and no field contains a
    tab, a line feed or a carriage return.  (A line whose last columns are
    empty therefore loses them.) *)
Theorem parsed_entries_are_clean (content : string) (entries : list (list string)) :
  parse_manifest content = Return entries ->
  Forall (fun e =>
            (exists c f rest, e = String c f :: rest /\ is_space c = false)
            /\ (exists l, last e = Some l /\ l <> "")
            /\ Forall (fun x => has_char is_tab x = false
                                /\ has_char is_lf x = false
                                /\ has_char is_cr x = false) e) entries.
Proof.
  unfold parse_manifest. destruct (is_ascii content); [|done].
  intros [= <-]. apply Forall_forall. intros e He.
  apply list_elem_of_omap in He as (line & Hline & Hparse).
  unfold parse_line in Hparse.
  destruct (strip line) as [|c s] eqn:Hs; [done|]. injection Hparse as <-.
  assert (is_space c = false) as Hc by (by eapply lstrip_head).
  assert (has_char is_lf (String c s) = false) as Hlf.
  { rewrite <- Hs. apply strip_line_no_lf.
    pose proof (lines_of_shape (universal_newlines content)) as Hsh.
    eapply Forall_forall in Hsh; [exact Hsh|done]. }
  assert (has_char is_cr (String c s) = false) as Hcr.
  { rewrite <- Hs. unfold strip. apply lstrip_chars, rstrip_chars.
    pose proof (lines_of_chars is_cr _ (universal_newlines_no_cr content)) as H.
    eapply Forall_forall in H; [exact H|done]. }
  split; [|split].
  - cbn [split_on]. rewrite bool_decide_eq_false_2.
    + destruct (split_on_cons "009" s) as (f & fs & ->). by exists c, f, fs.
    + intros ->. by rewrite is_space_tab in Hc.
  - assert (exists d, last_char (String c s) = Some d /\ is_space d = false)
      as (d & Hd & Hsp).
    { assert (exists d, last_char (String c s) = Some d) as [d Hd].
      { clear. revert c. induction s as [|a s IH]; intros c; [by eexists|].
        destruct (IH a) as [d Hd]. exists d. exact Hd. }
      exists d. split; [done|]. rewrite <- Hs in Hd. unfold strip in Hd.
      rewrite lstrip_last in Hd by (fold (strip line); by rewrite Hs).
      by eapply rstrip_last. }
    apply (split_on_last "009" (String c s) d Hd).
    intros ->. by rewrite is_space_tab in Hsp.
  - pose proof (split_on_no_sep "009" (String c s)) as Htab.
    pose proof (split_on_chars is_lf "009" _ Hlf) as Hl.
    pose proof (split_on_chars is_cr "009" _ Hcr) as Hr.
    apply Forall_forall. intros x Hx.
    eapply Forall_forall in Htab, Hl, Hr; try exact Hx. done.
Qed.

Lemma is_ascii_app (s t : string) :
  is_ascii (s +:+ t) = is_ascii s && is_ascii t.
Proof.
  induction s as [|c s IH]; [done|].
  rewrite app_cons_str. cbn [is_ascii]. by rewrite IH, andb_assoc.
Qed.

Lemma universal_newlines_id (s : string) :
  has_char is_cr s = false -> universal_newlines s = s.
Proof.
  induction s as [|c s IH]; [done|]. cbn [has_char universal_newlines].
  intros [Hc Hs]%orb_false_iff. unfold is_cr in Hc. rewrite Hc.
  by rewrite IH.
Qed.

Lemma lines_of_line (l rest : string) :
  has_char is_lf l = false ->
  lines_of (l +:+ NL +:+ rest) = (l +:+ NL) :: lines_of rest.
Proof.
  induction l as [|c l IH]; [done|]. cbn [has_char].
  intros [Hc Hl]%orb_false_iff. rewrite !app_cons_str. cbn [lines_of].
  unfold is_lf in Hc. rewrite Hc. by rewrite IH.
Qed.

Lemma split_on_plain (f : string) :
  has_char is_tab f = false -> split_on "009" f = [f].
Proof.
  induction f as [|c f IH]; [done|]. cbn [has_char split_on].
  intros [Hc Hf]%orb_false_iff. unfold is_tab in Hc. rewrite Hc.
  by rewrite IH.
Qed.

Lemma split_on_field (f rest : string) :
  has_char is_tab f = false ->
  split_on "009" (f +:+ TAB +:+ rest) = f :: split_on "009" rest.
Proof.
  induction f as [|c f IH]; [done|]. cbn [has_char].
  intros [Hc Hf]%orb_false_iff. rewrite app_cons_str. cbn [split_on].
  unfold is_tab in Hc. rewrite Hc. by rewrite IH.
Qed.

Lemma split_join (e : list string) :
  e <> [] -> Forall (fun f => has_char is_tab f = false) e ->
  split_on "009" (join TAB e) = e.
Proof.
  induction e as [|f e IH]; [done|]. intros _ [Hf He]%Forall_cons.
  destruct e as [|g e]; [by apply split_on_plain|].
  change (join TAB (f :: g :: e)) with (f +:+ TAB +:+ join TAB (g :: e)).
  rewrite split_on_field by done. by rewrite IH.
Qed.

Lemma join_chars P (e : list string) :
  P "009"%char = false ->
  Forall (fun f => has_char P f = false) e -> has_char P (join TAB e) = false.
Proof.
  intros Ht. induction e as [|f e IH]; [done|]. intros [Hf He]%Forall_cons.
  destruct e as [|g e]; [done|].
  change (join TAB (f :: g :: e)) with (f +:+ TAB +:+ join TAB (g :: e)).
  rewrite !has_char_app, Hf, IH by done. cbn. by rewrite Ht.
Qed.

Lemma join_ascii (e : list string) :
  Forall (fun f => is_ascii f = true) e -> is_ascii (join TAB e) = true.
Proof.
  induction e as [|f e IH]; [done|]. intros [Hf He]%Forall_cons.
  destruct e as [|g e]; [done|].
  change (join TAB (f :: g :: e)) with (f +:+ TAB +:+ join TAB (g :: e)).
  by rewrite !is_ascii_app, Hf, IH.
Qed.

Lemma plain_field_inv (f : string) :
  plain_field f = true ->
  is_ascii f = true /\ has_char is_tab f = false
  /\ has_char is_lf f = false /\ has_char is_cr f = false.
Proof.
  unfold plain_field. rewrite !andb_true_iff, !negb_true_iff. tauto.
Qed.

Lemma writable_line (e : list string) :
  writable e ->
  is_ascii (join TAB e) = true
  /\ has_char is_lf (join TAB e) = false
  /\ has_char is_cr (join TAB e) = false
  /\ parse_line (join TAB e +:+ NL) = Some e.
Proof.
  intros (Hplain & Hne & Hl & Hr).
  assert (Forall (fun f => is_ascii f = true /\ has_char is_tab f = false
                           /\ has_char is_lf f = false
                           /\ has_char is_cr f = false) e) as Hf.
  { eapply Forall_impl; [exact Hplain|]. apply plain_field_inv. }
  split; [|split; [|split]].
  - apply join_ascii. eapply Forall_impl; [exact Hf|]. by intros x (? & ? & ? & ?).
  - apply join_chars; [done|]. eapply Forall_impl; [exact Hf|]. by intros x (? & ? & ? & ?).
  - apply join_chars; [done|]. eapply Forall_impl; [exact Hf|]. by intros x (? & ? & ? & ?).
  - unfold parse_line, strip. rewrite rstrip_newline, Hr, Hl.
    destruct (join TAB e) as [|c s] eqn:Hj; [done|]. rewrite <- Hj.
    f_equal. apply split_join.
    + intros ->. done.
    + eapply Forall_impl; [exact Hf|]. by intros x (? & ? & ? & ?).
Qed.

(** X17.  Writing and reading back.  A manifest written from entries whose
    fields are plain, one entry per line with tabs between the fields and
    no white space at the ends of the line, is parsed into these very
    entries, whatever the number of fields of each. *)
Theorem parse_rendered_manifest (entries : list (list string)) :
  Forall writable entries ->
  parse_manifest (render_manifest entries) = Return entries.
Proof.
  intros Hw. unfold parse_manifest.
  assert (is_ascii (render_manifest entries) = true
          /\ has_char is_cr (render_manifest entries) = false
          /\ omap parse_line (lines_of (render_manifest entries)) = entries)
    as (Ha & Hcr & Hp).
  { induction Hw as [|e entries He _ (IHa & IHc & IHp)]; [done|].
    destruct (writable_line e He) as (Hea & Hlf & Hcr & Hparse).
    unfold render_manifest in *. cbn [map str_concat].
    split; [|split].
    - by rewrite !is_ascii_app, Hea, IHa.
    - by rewrite !has_char_app, Hcr, IHc.
    - rewrite app_assoc_str, lines_of_line by done.
      change (omap parse_line (?a :: ?l))
        with (match parse_line a with
              | Some y => y :: omap parse_line l
              | None => omap parse_line l
              end).
      by rewrite Hparse, IHp. }
  by rewrite Ha, universal_newlines_id, Hp.
Qed.

Lemma reset_then {A} (rest : IO A) (w : World) :
  (present <- os_path_exists ERROR_LOG_FILE ;;
   (if present : bool then os_remove ERROR_LOG_FILE else ret tt) ;;;
   rest)%st w
  = if is_dir (fs w !! ERROR_LOG_FILE)
    then (Raise (is_a_directory ERROR_LOG_FILE), w)
    else rest (after_reset w).
Proof.
  unfold bind, os_path_exists, os_remove, ret.
  destruct (fs w !! ERROR_LOG_FILE) as [[d|k]|] eqn:Hlog;
    rewrite ?Hlog; cbn [is_dir]; [done|done|].
  f_equal. destruct w as [m nt tr]. unfold after_reset, set_fs.
  cbn in *. by rewrite delete_id.
Qed.

Lemma manifest_survives_reset (w : World) :
  fs (after_reset w) !! INPUT_FILE = fs w !! INPUT_FILE.
Proof. unfold after_reset. cbn [fs set_fs]. by apply lookup_delete_ne. Qed.


(** X19.  Without a manifest the script raises the error of the failed
    [open], and makes no call; but the error log of the previous run is
    already gone. *)
Theorem missing_manifest_aborts_after_reset base (sched : list nat) (w : World) :
  fs w !! INPUT_FILE = None ->
  is_dir (fs w !! ERROR_LOG_FILE) = false ->
  main_with_manifest base sched w
  = (Raise (no_such_file INPUT_FILE), after_reset w)
  /\ fs (after_reset w) !! ERROR_LOG_FILE = None
  /\ trace (after_reset w) = trace w.
Proof.
  intros Hfile Hd. split; [|split; [|done]].
  - unfold main_with_manifest. rewrite reset_then, Hd.
    unfold bind at 1, open_rb. by rewrite manifest_survives_reset, Hfile.
  - unfold after_reset. cbn [fs set_fs]. by rewrite lookup_delete_eq.
Qed.

(** ** The prompt *)

Lemma rstrip_slash_last (s : string) :
  last_char (rstrip_slash s) <> Some "/"%char.
Proof.
  induction s as [|c s IH]; [done|]. cbn [rstrip_slash].
  destruct (rstrip_slash s) as [|b r] eqn:Hr.
  - case_bool_decide; [done|]. cbn. congruence.
  - exact IH.
Qed.

Lemma rstrip_slash_split (s : string) :
  exists t, s = rstrip_slash s +:+ t
            /\ has_char (fun c => negb (bool_decide (c = "/"%char))) t = false.
Proof.
  induction s as [|c s (t & Hs & Ht)]; [by exists ""|]. cbn [rstrip_slash].
  destruct (rstrip_slash s) as [|b r] eqn:Hr.
  - change ("" +:+ t) with t in Hs. subst t. case_bool_decide as Hc.
    + exists (String c s). split; [done|]. cbn [has_char].
      by rewrite bool_decide_eq_true_2.
    + exists s. done.
  - exists t. split; [|done]. rewrite app_cons_str. by rewrite <- Hs.
Qed.

(** X20.  The base URL kept from an answer to the prompt (of ASCII
    characters) never ends with a slash, so that the template puts exactly
    one slash before [wiki]; it is the stripped answer without the slashes
    that ended it. *)
Theorem base_has_no_trailing_slash (answer : string) :
  is_ascii answer = true ->
  endswith_sep (base_of_input answer) = false
  /\ exists t,
       strip answer = base_of_input answer +:+ t
       /\ has_char (fun c => negb (bool_decide (c = "/"%char))) t = false.
Proof.
  intros _. split.
  - unfold endswith_sep, base_of_input. apply bool_decide_eq_false.
    apply rstrip_slash_last.
  - apply rstrip_slash_split.
Qed.

(** ** These properties on the sample worlds *)


Lemma early_failure_changes_nothing_witness :
  exists w',
    download_with_progress "http://w/images/cat.png" "images/cat.png"
      "Image: cat.png" "cat.png" bad_length_world
    = (Return (false, "invalid literal for int() with base 10: 'abc'"), w')
    /\ fs w' = fs bad_length_world.
Proof.
  refine (proj1 (early_failure_changes_nothing "http://w/images/cat.png"
                   "images/cat.png" "Image: cat.png" "cat.png" bad_length_world
                   (bad_length "http://w/images/cat.png") _ _)
                (Exn ValueError "invalid literal for int() with base 10: 'abc'")
                _).
  - reflexivity.
  - left. cbn. lia.
  - reflexivity.
Defined.

Lemma broken_transfer_leaves_partial_file_witness :
  exists w',
    download_with_progress "http://w/images/cat.png" "images/cat.png"
      "Image: cat.png" "cat.png" cut_short_world
    = (Return (false, "Connection broken: IncompleteRead"), w')
    /\ fs w' = <["images/cat.png" := File (str_concat ["ab"])]>
                 (fs cut_short_world).
Proof.
  apply (broken_transfer_leaves_partial_file "http://w/images/cat.png"
           "images/cat.png" "Image: cat.png" "cat.png" cut_short_world
           (cut_short "http://w/images/cat.png") 3%Z
           (Exn RequestException "Connection broken: IncompleteRead")).
  - reflexivity.
  - left. cbn. lia.
  - reflexivity.
  - vm_compute. reflexivity.
  - reflexivity.
Defined.

Lemma clean_entry_has_both_files_witness :
  exists new c r data,
    trace cat_world = trace sample_world ++ new
    /\ Forall (fun c => fst (call_result c) = true) new
    /\ last new = Some c
    /\ call_reply c = Responded r
    /\ fs cat_world !! descpath_of "cat.png"
       = Some (File (str_concat (chunks r)))
    /\ fs cat_world !! filepath_of "cat.png" = Some (File data).
Proof.
  apply (clean_entry_has_both_files "http://w" "cat.png"
           "http://w/images/cat.png" "alice" "3"
           "a9993e364706816aba3e25717850c26c9cd0d89d" sample_world).
  vm_compute. reflexivity.
Defined.



Lemma run_touches_manifest_paths_only_witness :
  is_Some (fs (snd (main "http://w" [cat_entry; dog_entry] [1] manifest_world))
             !! INPUT_FILE).
Proof.
  apply (proj1 (run_touches_manifest_paths_only "http://w" [cat_entry; dog_entry]
                  [1] manifest_world INPUT_FILE ltac:(discriminate))).
  vm_compute. eexists. reflexivity.
Defined.

Lemma first_malformed_entry_raises_witness :
  fst (main "http://w" [cat_entry; short_entry; dog_entry; []] [3; 2]
            sample_world)
  = Raise (unpack_error (length short_entry)).
Proof.
  apply (first_malformed_entry_raises "http://w"
           [cat_entry; short_entry; dog_entry; []] [3; 2] sample_world 1
           short_entry).
  - vm_compute. reflexivity.
  - reflexivity.
  - cbn. lia.
  - intros k e Hk He. destruct k as [|k]; [|lia].
    injection He as <-. reflexivity.
Defined.



Lemma parsed_entries_are_clean_witness :
  Forall (fun e =>
            (exists c f rest, e = String c f :: rest /\ is_space c = false)
            /\ (exists l, last e = Some l /\ l <> "")
            /\ Forall (fun x => has_char is_tab x = false
                                /\ has_char is_lf x = false
                                /\ has_char is_cr x = false) e)
         [cat_entry; ["owl.png"; "http://w/images/owl.png"; "carol"; "5"]].
Proof.
  apply (parsed_entries_are_clean untidy_manifest).
  vm_compute. reflexivity.
Defined.

Lemma parse_rendered_manifest_witness :
  parse_manifest sample_manifest = Return [cat_entry; dog_entry].
Proof.
  apply (parse_rendered_manifest [cat_entry; dog_entry]).
  repeat apply List.Forall_cons; try apply List.Forall_nil;
    (split; [repeat apply List.Forall_cons; try apply List.Forall_nil;
             reflexivity|]);
    (split; [vm_compute; discriminate|]);
    split; vm_compute; reflexivity.
Defined.


Lemma missing_manifest_aborts_after_reset_witness :
  main_with_manifest "http://w" [] stale_world
  = (Raise (no_such_file INPUT_FILE), after_reset stale_world)
  /\ fs (after_reset stale_world) !! ERROR_LOG_FILE = None
  /\ trace (after_reset stale_world) = trace stale_world.
Proof.
  apply (missing_manifest_aborts_after_reset "http://w" [] stale_world).
  - vm_compute. reflexivity.
  - vm_compute. reflexivity.
Defined.

Lemma base_has_no_trailing_slash_witness :
  endswith_sep (base_of_input "  https://example.fandom.com// ") = false
  /\ exists t,
       strip "  https://example.fandom.com// "
       = base_of_input "  https://example.fandom.com// " +:+ t
       /\ has_char (fun c => negb (bool_decide (c = "/"%char))) t = false.
Proof.
  apply (base_has_no_trailing_slash "  https://example.fandom.com// ").
  reflexivity.
Defined.

(** The untidy manifest loses the empty last column of its second line, and
    the worker then refuses the entry. *)
Example untidy_manifest_parsed :
  parse_manifest untidy_manifest
  = Return [cat_entry; ["owl.png"; "http://w/images/owl.png"; "carol"; "5"]].
Proof. vm_compute. reflexivity. Qed.
